(** * Gibber: the post router ([postRouter])

    A shallow embedding of the server side of [postRouter]: the interaction
    annotation ([computeInteractions]), the profile listing
    ([getByProfileId]), the write transaction ([create]) and the issuing of
    upload slots ([createPresignedUrls]).

    The relational store is a record of tables; the tables with a primary
    key ([Post], [File], [Profile]) are finite maps from the id to the row,
    the join tables ([Attachment], [Favorite]) are lists of rows.  The
    object store is a finite map from keys to objects.  A procedure is a
    function from the world to a result and a new world; a [throw] keeps the
    world reached so far, and [transaction] restores the database part. *)

From Stdlib Require Import ZArith QArith Qround.
From stdpp Require Import base option list gmap strings sorting pretty.

Local Open Scope string_scope.
Local Open Scope Z_scope.

(** ** Rows of the relational store

    The Prisma schema is not part of the router; a row carries the columns
    the router reads or writes. *)

Module Post.
Record t := mk {
    id : string;
    profileId : string;
    content : option string;
    inReplyToId : option string;
    reblogId : option string;
    repliesCount : Z;
    reblogsCount : Z;
    createdAt : Z;
}.
End Post.

Module File.
Record t := mk {
    id : string;
    type : string;
    url : string;
    mime : string;
    extension : string;
    name : string;
    size : N;
    width : N;
    height : N;
}.
End File.

Module Attachment.
Record t := mk { postId : string; fileId : string }.
End Attachment.

Module Favorite.
Record t := mk { profileId : string; postId : string }.
End Favorite.

Module Profile.
Record t := mk { id : string; userId : string }.
End Profile.

Record DB := mkDB {
  db_post : gmap string Post.t;
  db_file : gmap string File.t;
  db_attachment : list Attachment.t;
  db_favorite : list Favorite.t;
  db_profile : gmap string Profile.t;
}.

(** ** Where clauses

    A condition on a nullable column, as the router writes them:
    [undefined] (no condition at all), [null], a value, and
    [NOT: { column: null }]. *)

Inductive Cond :=
  | Unset
  | IsNull
  | Equals (v : string)
  | NotNull.

Definition cond_holds (c : Cond) (v : option string) : bool :=
  match c, v with
  | Unset, _ => true
  | IsNull, None => true
  | IsNull, Some _ => false
  | Equals x, Some y => bool_decide (x = y)
  | Equals _, None => false
  | NotNull, Some _ => true
  | NotNull, None => false
  end.

(** An optional argument used as a filter value ([where: { profileId }]):
    a string is an equality, [undefined] is no condition. *)
Definition of_optional (o : option string) : Cond :=
  match o with
  | Some v => Equals v
  | None => Unset
  end.

Record PostWhere := mkPostWhere {
  where_profileId : Cond;
  where_content : Cond;
  where_reblogId : Cond;
  where_inReplyToId : Cond;
  where_attachments_some : bool;
}.

Definition attachments_of (db : DB) (postId : string) : list Attachment.t :=
  List.filter (λ a, bool_decide (Attachment.postId a = postId)) (db_attachment db).

Definition post_matches (db : DB) (w : PostWhere) (p : Post.t) : bool :=
  cond_holds (where_profileId w) (Some (Post.profileId p))
  && cond_holds (where_content w) (Post.content p)
  && cond_holds (where_reblogId w) (Post.reblogId p)
  && cond_holds (where_inReplyToId w) (Post.inReplyToId p)
  && (if where_attachments_some w
      then negb (bool_decide (attachments_of db (Post.id p) = []))
      else true).

(** The rows of the Post table.  A query without [orderBy] returns them in
    an order the database chooses; here it is the order of the keys of the
    map; the statements below speak of which rows a query returns, and of
    their order only where the query sorts. *)
Definition post_rows (db : DB) : list Post.t := (map_to_list (db_post db)).*2.

(** [prisma.post.findMany({ where })], without [orderBy]. *)
Definition post_findMany (db : DB) (w : PostWhere) : list Post.t :=
  List.filter (post_matches db w) (post_rows db).

(** [orderBy: [{ createdAt: "desc" }]]. *)
Definition createdAt_desc (p q : Post.t) : Prop :=
  Post.createdAt q ≤ Post.createdAt p.

Global Instance createdAt_desc_dec p q : Decision (createdAt_desc p q).
Proof. unfold createdAt_desc. apply _. Defined.

Definition post_findMany_desc (db : DB) (w : PostWhere) : list Post.t :=
  merge_sort createdAt_desc (post_findMany db w).

(** [prisma.favorite.findMany({ where: { profileId } })]. *)
Definition favorite_findMany (db : DB) (profileId : Cond) : list Favorite.t :=
  List.filter (λ f, cond_holds profileId (Some (Favorite.profileId f)))
    (db_favorite db).

(** ** Hydrated posts

    [basePostInclude] loads the profile and the attachments with their
    files; [postInclude] adds the reblog target, loaded with
    [basePostInclude]. *)

Record BasePost := mkBasePost {
  bp_row : Post.t;
  bp_profile : option Profile.t;
  bp_attachments : list (Attachment.t * option File.t);
}.

Record HydratedPost := mkHydratedPost {
  hp_base : BasePost;
  hp_reblog : option BasePost;
}.

Definition hp_id (p : HydratedPost) : string := Post.id (bp_row (hp_base p)).
Definition bp_id (p : BasePost) : string := Post.id (bp_row p).

Definition include_base (db : DB) (p : Post.t) : BasePost :=
  {| bp_row := p;
     bp_profile := db_profile db !! Post.profileId p;
     bp_attachments :=
       (λ a, (a, db_file db !! Attachment.fileId a)) <$> attachments_of db (Post.id p) |}.

Definition include_post (db : DB) (p : Post.t) : HydratedPost :=
  {| hp_base := include_base db p;
     hp_reblog := include_base db <$> (Post.reblogId p ≫= λ r, db_post db !! r) |}.

(** ** The interaction annotation *)

(** The nested object [{ isReblogged, isFavorited, reblog: null, ...post.reblog }]. *)
Record NestedInteractions := mkNested {
  n_isReblogged : bool;
  n_isFavorited : bool;
  n_reblog : option BasePost;
  n_post : BasePost;
}.

(** [{ isReblogged, isFavorited, ...post, ...reblog }]: the hydrated post
    has no [isReblogged] or [isFavorited] field to override the flags, and
    its [reblog] field is replaced by the nested annotation. *)
Record WithInteractions := mkWithInteractions {
  wi_isReblogged : bool;
  wi_isFavorited : bool;
  wi_post : BasePost;
  wi_reblog : option NestedInteractions;
}.

(** [Array.prototype.includes] on an array of nullable strings. *)
Definition includes (l : list (option string)) (x : string) : bool :=
  bool_decide (Some x ∈ l).

Definition reblogs_where (profileId : option string) : PostWhere :=
  {| where_profileId := of_optional profileId;
     where_content := IsNull;
     where_reblogId := NotNull;
     where_inReplyToId := Unset;
     where_attachments_some := false |}.

Definition reblogIds_of (db : DB) (profileId : option string) : list (option string) :=
  Post.reblogId <$> post_findMany db (reblogs_where profileId).

Definition favoriteIds_of (db : DB) (profileId : option string) : list (option string) :=
  (λ f, Some (Favorite.postId f)) <$> favorite_findMany db (of_optional profileId).

Definition annotate (reblogIds favoriteIds : list (option string))
    (post : HydratedPost) : WithInteractions :=
  let reblog :=
    match hp_reblog post with
    | Some r =>
        Some {| n_isReblogged := includes reblogIds (bp_id r);
                n_isFavorited := includes favoriteIds (bp_id r);
                n_reblog := None;
                n_post := r |}
    | None => None
    end in
  {| wi_isReblogged := includes reblogIds (hp_id post);
     wi_isFavorited := includes favoriteIds (hp_id post);
     wi_post := hp_base post;
     wi_reblog := reblog |}.

Definition computeInteractions (db : DB) (posts : list HydratedPost)
    (profileId : option string) : list WithInteractions :=
  let reblogIds := reblogIds_of db profileId in
  let favoriteIds := favoriteIds_of db profileId in
  annotate reblogIds favoriteIds <$> posts.

(** ** [getByProfileId] *)

Inductive ProfileFilter := WithReplies | Media.

Global Instance ProfileFilter_eq_dec : EqDecision ProfileFilter.
Proof. solve_decision. Defined.

Record GetByProfileIdInput := mkGetByProfileIdInput {
  gbp_filter : option ProfileFilter;
  gbp_profileId : string;
}.

(** The local [filter] object: [inReplyToId] and [attachments] are both
    optional keys. *)
Record ProfileFilterObj := mkProfileFilterObj {
  fo_inReplyToId : Cond;
  fo_attachments_some : bool;
}.

Definition getByProfileId_filter (f : option ProfileFilter) : ProfileFilterObj :=
  let filter := {| fo_inReplyToId := IsNull; fo_attachments_some := false |} in
  let filter :=
    if bool_decide (f = Some WithReplies)
    then {| fo_inReplyToId := Unset; fo_attachments_some := false |}
    else filter in
  let filter :=
    if bool_decide (f = Some Media)
    then {| fo_inReplyToId := Unset; fo_attachments_some := true |}
    else filter in
  filter.

(** [{ ...filter, profileId: input.profileId }]. *)
Definition getByProfileId_where (input : GetByProfileIdInput) : PostWhere :=
  let filter := getByProfileId_filter (gbp_filter input) in
  {| where_profileId := Equals (gbp_profileId input);
     where_content := Unset;
     where_reblogId := Unset;
     where_inReplyToId := fo_inReplyToId filter;
     where_attachments_some := fo_attachments_some filter |}.

Definition getByProfileId (db : DB) (input : GetByProfileIdInput) : list WithInteractions :=
  let posts := include_post db <$> post_findMany_desc db (getByProfileId_where input) in
  computeInteractions db posts (Some (gbp_profileId input)).

(** ** The world of a mutation *)

Inductive Exn :=
  | TRPCError (code message : string)
  | ZodError (message : string)
  | PrismaError (code : string)
  | S3Error (name : string)
  | ProbeError (message : string).

(** The part of a [GetObjectCommandOutput] the router reads. *)
Record S3Object := mkS3Object {
  Body : list Byte.byte;
  ContentLength : option N;
}.

(** The result of [probe-image-size]. *)
Record ProbeResult := mkProbeResult {
  pr_mime : string;
  pr_type : string;
  pr_width : N;
  pr_height : N;
}.

(** External collaborators: the environment variables, the two id
    generators (the n-th value each of them hands out), the image probe,
    which rejects or resolves to a possibly empty result, and the URL
    signer. *)
Record Env := mkEnv {
  S3_BUCKET : string;
  S3_WEB_ENDPOINT : string;
  uuid_at : nat → string;
  cuid_at : nat → string;
  probe : list Byte.byte → Exn + option ProbeResult;
  getSignedUrl : string → string → string;
}.

Record World := mkWorld {
  w_db : DB;
  w_s3 : gmap string S3Object;
  w_uuid : nat;
  w_cuid : nat;
  w_clock : Z;
}.

Definition set_db (d : DB) (w : World) : World :=
  {| w_db := d; w_s3 := w_s3 w; w_uuid := w_uuid w; w_cuid := w_cuid w;
     w_clock := w_clock w |}.

Definition set_s3 (s : gmap string S3Object) (w : World) : World :=
  {| w_db := w_db w; w_s3 := s; w_uuid := w_uuid w; w_cuid := w_cuid w;
     w_clock := w_clock w |}.

(** A procedure: a result or an exception, and the world it leaves. *)
Definition M (A : Type) : Type := World → (Exn + A) * World.

Definition ret {A} (a : A) : M A := λ w, (inr a, w).
Definition throw {A} (e : Exn) : M A := λ w, (inl e, w).
Definition bind {A B} (m : M A) (k : A → M B) : M B :=
  λ w, match m w with
       | (inr a, w') => k a w'
       | (inl e, w') => (inl e, w')
       end.

Global Instance M_ret : MRet M := @ret.
Global Instance M_bind : MBind M := λ A B k m, bind m k.

(** [prisma.$transaction(body)]: when the body throws, the writes it made
    to the database are discarded; what it did to the object store and to
    the id generators stays. *)
Definition transaction {A} (body : M A) : M A :=
  λ w, match body w with
       | (inr a, w') => (inr a, w')
       | (inl e, w') => (inl e, set_db (w_db w) w')
       end.

Definition uuidv4 (env : Env) : M string :=
  λ w, (inr (uuid_at env (w_uuid w)),
        {| w_db := w_db w; w_s3 := w_s3 w; w_uuid := S (w_uuid w);
           w_cuid := w_cuid w; w_clock := w_clock w |}).

(** The id the database gives to a new row. *)
Definition cuid (env : Env) : M string :=
  λ w, (inr (cuid_at env (w_cuid w)),
        {| w_db := w_db w; w_s3 := w_s3 w; w_uuid := w_uuid w;
           w_cuid := S (w_cuid w); w_clock := w_clock w |}).

(** ** Database operations inside the transaction *)

Definition set_post (t : gmap string Post.t) (d : DB) : DB :=
  {| db_post := t; db_file := db_file d; db_attachment := db_attachment d;
     db_favorite := db_favorite d; db_profile := db_profile d |}.

Definition set_file (t : gmap string File.t) (d : DB) : DB :=
  {| db_post := db_post d; db_file := t; db_attachment := db_attachment d;
     db_favorite := db_favorite d; db_profile := db_profile d |}.

Definition set_attachment (t : list Attachment.t) (d : DB) : DB :=
  {| db_post := db_post d; db_file := db_file d; db_attachment := t;
     db_favorite := db_favorite d; db_profile := db_profile d |}.

(** [prisma.profile.findFirst({ where: { id, userId } })]. *)
Definition profile_findFirst (id userId : string) : M (option Profile.t) :=
  λ w, (inr (match db_profile (w_db w) !! id with
             | Some p => if bool_decide (Profile.userId p = userId) then Some p else None
             | None => None
             end), w).

(** [tx.post.create({ data })]: the id is the database's, the counters
    start at 0 and [createdAt] is the time of the insert; a taken id is a
    unique constraint violation.  The schema is not part of the router and
    no foreign key is checked here: a reference to a post that is not
    there fails at the update of its counter. *)
Definition post_insert (id : string) (inReplyToId reblogId : option string)
    (profileId : string) (content : option string) : M Post.t :=
  λ w, match db_post (w_db w) !! id with
       | Some _ => (inl (PrismaError "P2002"), w)
       | None =>
           let row := {| Post.id := id; Post.profileId := profileId;
                         Post.content := content;
                         Post.inReplyToId := inReplyToId;
                         Post.reblogId := reblogId;
                         Post.repliesCount := 0; Post.reblogsCount := 0;
                         Post.createdAt := w_clock w |} in
           (inr row, set_db (set_post (<[id := row]> (db_post (w_db w))) (w_db w)) w)
       end.

Definition post_create (env : Env) (inReplyToId reblogId : option string)
    (profileId : string) (content : option string) : M Post.t :=
  id ← cuid env;
  post_insert id inReplyToId reblogId profileId content.

(** What [data] writes for a counter column: [{ increment: n }], which
    the database adds to the value the row holds when the statement runs,
    or a plain value, which replaces it.  The counters are integers
    without a bound here; the width of the column is the schema's. *)
Inductive CounterOp :=
  | Increment (n : Z)
  | Assign (v : Z).

(** The [data] of an update of a post: the counter columns it names. *)
Record PostUpdateData := mkPostUpdateData {
  data_repliesCount : option CounterOp;
  data_reblogsCount : option CounterOp;
}.

Definition apply_op (op : option CounterOp) (v : Z) : Z :=
  match op with
  | Some (Increment n) => v + n
  | Some (Assign x) => x
  | None => v
  end.

(** The row the database stores for [data] on the row [p]. *)
Definition apply_data (data : PostUpdateData) (p : Post.t) : Post.t :=
  {| Post.id := Post.id p; Post.profileId := Post.profileId p;
     Post.content := Post.content p; Post.inReplyToId := Post.inReplyToId p;
     Post.reblogId := Post.reblogId p;
     Post.repliesCount := apply_op (data_repliesCount data) (Post.repliesCount p);
     Post.reblogsCount := apply_op (data_reblogsCount data) (Post.reblogsCount p);
     Post.createdAt := Post.createdAt p |}.

(** [{ repliesCount: { increment: 1 } }]. *)
Definition repliesCount_increment : PostUpdateData :=
  {| data_repliesCount := Some (Increment 1); data_reblogsCount := None |}.

(** [{ reblogsCount: { increment: 1 } }]. *)
Definition reblogsCount_increment : PostUpdateData :=
  {| data_repliesCount := None; data_reblogsCount := Some (Increment 1) |}.

Definition increment_repliesCount (p : Post.t) : Post.t :=
  apply_data repliesCount_increment p.

Definition increment_reblogsCount (p : Post.t) : Post.t :=
  apply_data reblogsCount_increment p.

(** [tx.post.update({ where: { id }, data })]: one statement, in which
    the database applies [data] to the row it holds under that id; no such
    row is an error. *)
Definition post_update (id : string) (data : PostUpdateData) : M unit :=
  λ w, match db_post (w_db w) !! id with
       | Some p =>
           (inr (),
            set_db (set_post (<[id := apply_data data p]> (db_post (w_db w))) (w_db w)) w)
       | None => (inl (PrismaError "P2025"), w)
       end.

(** [tx.post.findUniqueOrThrow({ where: { id }, include: postInclude })]. *)
Definition post_findUniqueOrThrow (id : string) : M HydratedPost :=
  λ w, match db_post (w_db w) !! id with
       | Some p => (inr (include_post (w_db w) p), w)
       | None => (inl (PrismaError "P2025"), w)
       end.

(** [tx.file.create({ data })]. *)
Definition file_insert (row : File.t) : M File.t :=
  λ w, match db_file (w_db w) !! File.id row with
       | Some _ => (inl (PrismaError "P2002"), w)
       | None =>
           (inr row,
            set_db (set_file (<[File.id row := row]> (db_file (w_db w))) (w_db w)) w)
       end.

Definition file_create (env : Env) (data : string → File.t) : M File.t :=
  id ← cuid env;
  file_insert (data id).

(** [tx.attachment.create({ data })]. *)
Definition attachment_create (a : Attachment.t) : M unit :=
  λ w, (inr (), set_db (set_attachment (db_attachment (w_db w) ++ [a]) (w_db w)) w).

(** ** Object store commands *)

Definition CopyObject (src dst : string) : M unit :=
  λ w, match w_s3 w !! src with
       | Some o => (inr (), set_s3 (<[dst := o]> (w_s3 w)) w)
       | None => (inl (S3Error "NoSuchKey"), w)
       end.

Definition DeleteObject (k : string) : M unit :=
  λ w, (inr (), set_s3 (delete k (w_s3 w)) w).

Definition GetObject (k : string) : M S3Object :=
  λ w, match w_s3 w !! k with
       | Some o => (inr o, w)
       | None => (inl (S3Error "NoSuchKey"), w)
       end.

Definition run_probe (env : Env) (body : list Byte.byte) : M (option ProbeResult) :=
  λ w, (probe env body, w).

(** ** [create] *)

Module Upload.
Record t := mk { key : string; ext : string }.
End Upload.

Module CreateInput.
Record t := mk {
    profileId : string;
    inReplyToId : option string;
    reblogId : option string;
    content : option string;
    files : option (list Upload.t);
}.
End CreateInput.

(** The context of a protected procedure: the session is there. *)
Record Ctx := mkCtx { session_user_id : string }.

(** Truthiness of an optional string: [undefined] and the empty string
    are falsy. *)
Definition truthy (s : option string) : bool :=
  match s with
  | Some v => negb (bool_decide (v = EmptyString))
  | None => false
  end.

(** The [refine] of the input schema. *)
Definition create_refine (input : CreateInput.t) : bool :=
  truthy (CreateInput.inReplyToId input)
  || truthy (CreateInput.reblogId input)
  || truthy (CreateInput.content input)
  || match CreateInput.files input with
     | Some files => bool_decide (0 < length files)%nat
     | None => false
     end.

(** [z.object({ key: z.string().min(1), ext: z.string().min(1) })]. *)
Definition upload_schema (u : Upload.t) : bool :=
  bool_decide (1 ≤ String.length (Upload.key u))%nat
  && bool_decide (1 ≤ String.length (Upload.ext u))%nat.

(** The input schema: the object with its optional keys, the array with
    its bound before its elements, then the [refine].  The result is the
    first issue, if there is one. *)
Definition create_schema (input : CreateInput.t) : option string :=
  match CreateInput.files input with
  | Some files =>
      if negb (bool_decide (length files ≤ 4)%nat) then Some "too_big"
      else if negb (forallb upload_schema files) then Some "too_small"
      else if create_refine input then None
      else Some "Content, reblog, or files are required"
  | None =>
      if create_refine input then None
      else Some "Content, reblog, or files are required"
  end.

(** [if (id) { await tx.post.update({ where: { id }, data }) }]. *)
Definition update_if_truthy (id : option string) (data : PostUpdateData) : M unit :=
  match id with
  | Some v => if bool_decide (v = EmptyString) then ret () else post_update v data
  | None => ret ()
  end.

(** The permission check, the insert of the post and the two counters. *)
Definition create_post (env : Env) (ctx : Ctx) (input : CreateInput.t) : M Post.t :=
  hasPermission ←
    (r ← profile_findFirst (CreateInput.profileId input) (session_user_id ctx);
     ret (bool_decide (is_Some r)));
  if negb hasPermission
  then throw (TRPCError "FORBIDDEN" "You do not have access to this profile.")
  else
    post ← post_create env (CreateInput.inReplyToId input)
              (CreateInput.reblogId input) (CreateInput.profileId input)
              (CreateInput.content input);
    update_if_truthy (CreateInput.inReplyToId input) repliesCount_increment;;
    update_if_truthy (CreateInput.reblogId input) reblogsCount_increment;;
    ret post.




(** One upload, up to the probe: the new name, the copy to it, the delete
    of the staging object, the fetch and the probe.  Every command goes to
    the one bucket [S3_BUCKET]. *)
Definition relocate_upload (env : Env) (upload : Upload.t)
    : M (string * S3Object * option ProbeResult) :=
  uuid ← uuidv4 env;
  let name := uuid +:+ "." +:+ Upload.ext upload in
  CopyObject (Upload.key upload) name;;
  DeleteObject (Upload.key upload);;
  object ← GetObject name;
  fileType ← run_probe env (Body object);
  ret (name, object, fileType).

Definition invalid_file : Exn := TRPCError "BAD_REQUEST" "Invalid file uploaded.".

(** The check [!object.ContentLength || !fileType || upload.ext !==
    fileType.type], then the File row and the Attachment row. *)
Definition persist_upload (env : Env) (postId : string) (upload : Upload.t)
    (name : string) (object : S3Object) (fileType : option ProbeResult) : M unit :=
  match ContentLength object, fileType with
  | Some size, Some fileType =>
      if bool_decide (size = 0%N)
         || negb (bool_decide (Upload.ext upload = pr_type fileType))
      then throw invalid_file
      else
        file ← file_create env (λ id,
          {| File.id := id;
             File.type := "IMAGE";
             File.url := S3_WEB_ENDPOINT env +:+ "/" +:+ name;
             File.mime := pr_mime fileType;
             File.extension := Upload.ext upload;
             File.name := name;
             File.size := size;
             File.width := pr_height fileType;
             File.height := pr_width fileType |});
        attachment_create {| Attachment.postId := postId;
                             Attachment.fileId := File.id file |}
  | _, _ => throw invalid_file
  end.

Definition promote_upload (env : Env) (postId : string) (upload : Upload.t) : M unit :=
  '(name, object, fileType) ← relocate_upload env upload;
  persist_upload env postId upload name object fileType.

(** [for (const upload of files) { ... }]. *)
Fixpoint promote_files (env : Env) (postId : string) (files : list Upload.t) : M unit :=
  match files with
  | [] => ret ()
  | upload :: rest =>
      promote_upload env postId upload;;
      promote_files env postId rest
  end.

(** [{ isReblogged: false, isFavorited: false, ...createdPost }]. *)
Record CreatedPost := mkCreatedPost {
  cp_isReblogged : bool;
  cp_isFavorited : bool;
  cp_post : HydratedPost;
}.

(** The body handed to [$transaction]. *)
Definition create_tx (env : Env) (ctx : Ctx) (input : CreateInput.t) : M CreatedPost :=
  post ← create_post env ctx input;
  match CreateInput.files input with
  | Some files => promote_files env (Post.id post) files
  | None => ret ()
  end;;
  createdPost ← post_findUniqueOrThrow (Post.id post);
  ret {| cp_isReblogged := false; cp_isFavorited := false; cp_post := createdPost |}.

Definition create (env : Env) (ctx : Ctx) (input : CreateInput.t) : M CreatedPost :=
  match create_schema input with
  | Some issue => throw (ZodError issue)
  | None => transaction (create_tx env ctx input)
  end.

(** ** [createPresignedUrls] *)

Record PresignedUrl := mkPresignedUrl { pu_url : string; pu_key : string }.

(** [z.number().gte(1).lte(4)]: a number, not only an integer.  The finite
    numbers are rationals; the schema refuses the others. *)
Definition presigned_schema (count : Q) : bool :=
  Qle_bool 1 count && Qle_bool count 4.

(** [for (let i = 0; i < input.count; i++) { ... urls.push({ url, key }) }];
    [None] when the fuel is spent before the loop ends. *)
Fixpoint presign_loop (env : Env) (fuel : nat) (i : Z) (count : Q)
    (urls : list PresignedUrl) : M (option (list PresignedUrl)) :=
  if negb (Qle_bool count (inject_Z i))
  then
    match fuel with
    | O => ret None
    | S fuel =>
        key ← uuidv4 env;
        let url := getSignedUrl env (S3_BUCKET env) key in
        presign_loop env fuel (i + 1) count (urls ++ [{| pu_url := url; pu_key := key |}])
    end
  else ret (Some urls).

Definition createPresignedUrls (env : Env) (fuel : nat) (count : Q)
    : M (option (list PresignedUrl)) :=
  if presigned_schema count
  then presign_loop env fuel 0 count []
  else throw (ZodError "count").


(** * Specifications *)

(** The viewer's pure reblogs of [id]: a post of the viewer with no content
    whose [reblogId] is [id]. *)
Definition in_reblog_set (db : DB) (viewer id : string) : Prop :=
  ∃ k r, db_post db !! k = Some r
         ∧ Post.profileId r = viewer
         ∧ Post.content r = None
         ∧ Post.reblogId r = Some id.

(** The viewer's favorites: a Favorite row of the viewer for [id]. *)
Definition in_favorite_set (db : DB) (viewer id : string) : Prop :=
  ∃ f, f ∈ db_favorite db
       ∧ Favorite.profileId f = viewer
       ∧ Favorite.postId f = id.

(** What the annotation of one post has to be for a viewer. *)
Definition flags_spec (db : DB) (viewer : string) (id : string)
    (isReblogged isFavorited : bool) : Prop :=
  (isReblogged = true ↔ in_reblog_set db viewer id)
  ∧ (isFavorited = true ↔ in_favorite_set db viewer id).

Definition annotation_spec (db : DB) (viewer : string)
    (p : HydratedPost) (o : WithInteractions) : Prop :=
  wi_post o = hp_base p
  ∧ flags_spec db viewer (hp_id p) (wi_isReblogged o) (wi_isFavorited o)
  ∧ match hp_reblog p with
    | Some r =>
        ∃ n, wi_reblog o = Some n
             ∧ n_post n = r
             ∧ flags_spec db viewer (bp_id r) (n_isReblogged n) (n_isFavorited n)
    | None => True
    end.

(** The nested annotation of an output post against its input post: null
    together with the reblog target, and otherwise the target, its flags
    read off the two id lists of the call, and no nested annotation of its
    own. *)
Definition nested_spec (db : DB) (profileId : option string)
    (p : HydratedPost) (o : WithInteractions) : Prop :=
  (wi_reblog o = None ↔ hp_reblog p = None)
  ∧ match hp_reblog p with
    | Some r =>
        ∃ n, wi_reblog o = Some n
             ∧ n_post n = r
             ∧ n_isReblogged n = includes (reblogIds_of db profileId) (bp_id r)
             ∧ n_isFavorited n = includes (favoriteIds_of db profileId) (bp_id r)
             ∧ n_reblog n = None
    | None => True
    end.

Definition wi_row (o : WithInteractions) : Post.t := bp_row (wi_post o).

(** The restriction [getByProfileId] puts on a post of the profile, by
    filter argument. *)
Definition profile_filter_spec (db : DB) (f : option ProfileFilter) (p : Post.t) : Prop :=
  match f with
  | None => Post.inReplyToId p = None
  | Some WithReplies => True
  | Some Media => attachments_of db (Post.id p) ≠ []
  end.

Definition getByProfileId_spec (db : DB) (input : GetByProfileIdInput)
    (out : list WithInteractions) : Prop :=
  Forall (λ o, Post.profileId (wi_row o) = gbp_profileId input) out
  ∧ StronglySorted createdAt_desc (wi_row <$> out)
  ∧ match gbp_filter input with
    | None => Forall (λ o, Post.inReplyToId (wi_row o) = None) out
    | Some WithReplies => True
    | Some Media => Forall (λ o, bp_attachments (wi_post o) ≠ []) out
    end
  ∧ ∀ p, p ∈ wi_row <$> out
         ↔ (∃ k, db_post db !! k = Some p)
           ∧ Post.profileId p = gbp_profileId input
           ∧ profile_filter_spec db (gbp_filter input) p.

(** The entries [createPresignedUrls] hands out for the keys number
    [first], [first + 1], ... of the generator. *)
Definition presigned_entries (env : Env) (first n : nat) : list PresignedUrl :=
  (λ j, {| pu_url := getSignedUrl env (S3_BUCKET env) (uuid_at env j);
           pu_key := uuid_at env j |}) <$> seq first n.

(** * A small instance

    A deployment with one registered profile, a post of another profile
    that has been favorited and reblogged, and a staged upload. *)

Definition sample_probe (body : list Byte.byte) : Exn + option ProbeResult :=
  match body with
  | Byte.x50 :: _ =>
      inr (Some {| pr_mime := "image/png"; pr_type := "png";
                   pr_width := 640; pr_height := 480 |})
  | Byte.x4a :: _ =>
      inr (Some {| pr_mime := "image/jpeg"; pr_type := "jpg";
                   pr_width := 30; pr_height := 20 |})
  | Byte.x00 :: _ => inr None
  | _ => inl (ProbeError "unrecognized file format")
  end.

Definition sample_env : Env :=
  {| S3_BUCKET := "gibber";
     S3_WEB_ENDPOINT := "https://cdn.example";
     uuid_at := λ n, "u" +:+ pretty n;
     cuid_at := λ n, "c" +:+ pretty n;
     probe := sample_probe;
     getSignedUrl := λ bucket key, "https://" +:+ bucket +:+ ".s3/" +:+ key +:+ "?sig" |}.

Definition sample_P1 : Post.t :=
  {| Post.id := "P1"; Post.profileId := "bob"; Post.content := Some "hello";
     Post.inReplyToId := None; Post.reblogId := None;
     Post.repliesCount := 0; Post.reblogsCount := 1; Post.createdAt := 10 |}.

Definition sample_P2 : Post.t :=
  {| Post.id := "P2"; Post.profileId := "carol"; Post.content := None;
     Post.inReplyToId := None; Post.reblogId := Some "P1";
     Post.repliesCount := 0; Post.reblogsCount := 0; Post.createdAt := 20 |}.

Definition sample_db : DB :=
  {| db_post := {[ "P1" := sample_P1; "P2" := sample_P2 ]};
     db_file := ∅;
     db_attachment := [];
     db_favorite := [ {| Favorite.profileId := "bob"; Favorite.postId := "P1" |} ];
     db_profile := {[ "alice" := {| Profile.id := "alice"; Profile.userId := "user1" |} ]} |}.

Definition sample_world : World :=
  {| w_db := sample_db;
     w_s3 := {[ "k1" := {| Body := [Byte.x50]; ContentLength := Some 1%N |};
                "k2" := {| Body := [Byte.x4a]; ContentLength := Some 1%N |} ]};
     w_uuid := 0; w_cuid := 0; w_clock := 100 |}.

Definition sample_ctx : Ctx := {| session_user_id := "user1" |}.

Definition sample_upload (key ext : string) : Upload.t :=
  {| Upload.key := key; Upload.ext := ext |}.

(** A reblog of P1 without content, with one upload. *)
Definition sample_reblog : CreateInput.t :=
  {| CreateInput.profileId := "alice";
     CreateInput.inReplyToId := None;
     CreateInput.reblogId := Some "P1";
     CreateInput.content := None;
     CreateInput.files := Some [sample_upload "k1" "png"] |}.

(** An input with nothing in it. *)
Definition sample_empty : CreateInput.t :=
  {| CreateInput.profileId := "alice";
     CreateInput.inReplyToId := None;
     CreateInput.reblogId := None;
     CreateInput.content := None;
     CreateInput.files := Some [] |}.

(** The world after [k] more keys were drawn. *)
Definition uuid_advanced (k : nat) (w : World) : World :=
  {| w_db := w_db w; w_s3 := w_s3 w; w_uuid := (w_uuid w + k)%nat;
     w_cuid := w_cuid w; w_clock := w_clock w |}.

(** * The outcome of [create] *)

(** The caller's account owns the profile. *)
Definition has_permission (ctx : Ctx) (input : CreateInput.t) (d : DB) : bool :=
  match db_profile d !! CreateInput.profileId input with
  | Some p => bool_decide (Profile.userId p = session_user_id ctx)
  | None => false
  end.

(** The row of the new post. *)
Definition new_post (env : Env) (input : CreateInput.t) (w : World) : Post.t :=
  {| Post.id := cuid_at env (w_cuid w);
     Post.profileId := CreateInput.profileId input;
     Post.content := CreateInput.content input;
     Post.inReplyToId := CreateInput.inReplyToId input;
     Post.reblogId := CreateInput.reblogId input;
     Post.repliesCount := 0;
     Post.reblogsCount := 0;
     Post.createdAt := w_clock w |}.

(** [q] is the post a reference of the input points to. *)
Definition is_target (o : option string) (q : string) : bool :=
  truthy o && bool_decide (o = Some q).

(** The counters of post [q] after the two increments of the input. *)
Definition counted (input : CreateInput.t) (q : string) (p : Post.t) : Post.t :=
  let p := if is_target (CreateInput.inReplyToId input) q
           then increment_repliesCount p else p in
  if is_target (CreateInput.reblogId input) q
  then increment_reblogsCount p else p.

Definition uploads_of (input : CreateInput.t) : list Upload.t :=
  default [] (CreateInput.files input).

Definition file_entries (fs : list File.t) : list (string * File.t) :=
  (λ f, (File.id f, f)) <$> fs.

Definition attachments_for (postId : string) (fs : list File.t) : list Attachment.t :=
  (λ f, {| Attachment.postId := postId; Attachment.fileId := File.id f |}) <$> fs.

(** The database after a committed [create]: the new post, the counters
    of the posts it refers to, one File row and one Attachment row per
    upload, in the order of the uploads; the other tables as they were. *)
Record committed (env : Env) (ctx : Ctx) (input : CreateInput.t)
    (w w' : World) (cp : CreatedPost) (fs : list File.t) : Prop := mkCommitted {
  c_permission : has_permission ctx input (w_db w) = true;
  c_fresh : db_post (w_db w) !! Post.id (new_post env input w) = None;
  c_posts : ∀ q, db_post (w_db w') !! q
                 = counted input q
                   <$> <[Post.id (new_post env input w) := new_post env input w]>
                         (db_post (w_db w)) !! q;
  c_uploads : Forall2 (λ u f, File.extension f = Upload.ext u) (uploads_of input) fs;
  c_files_fresh : Forall (λ f, db_file (w_db w) !! File.id f = None) fs;
  c_files_nodup : NoDup (File.id <$> fs);
  c_files : db_file (w_db w') = list_to_map (file_entries fs) ∪ db_file (w_db w);
  c_attachments : db_attachment (w_db w')
                  = (db_attachment (w_db w)
                     ++ attachments_for (Post.id (new_post env input w)) fs)%list;
  c_favorite : db_favorite (w_db w') = db_favorite (w_db w);
  c_profile : db_profile (w_db w') = db_profile (w_db w);
  c_result : cp_isReblogged cp = false
             ∧ cp_isFavorited cp = false
             ∧ ∃ row, db_post (w_db w') !! Post.id (new_post env input w) = Some row
                      ∧ cp_post cp = include_post (w_db w') row;
}.

Definition forbidden : Exn :=
  TRPCError "FORBIDDEN" "You do not have access to this profile.".

(** What a committed [create] adds to a counter of post [q]: one when the
    reference of the input names [q], a reference being a string that is
    not empty. *)
Definition increment_for (o : option string) (q : string) : Z :=
  if decide (o = Some q ∧ q ≠ EmptyString) then 1 else 0.

(** The row [new] of post [q] after a committed [create] against the row
    [old] before it: the same columns, and each counter raised by what the
    input adds to it. *)
Definition post_after (input : CreateInput.t) (q : string) (old new : Post.t) : Prop :=
  Post.id new = Post.id old
  ∧ Post.profileId new = Post.profileId old
  ∧ Post.content new = Post.content old
  ∧ Post.inReplyToId new = Post.inReplyToId old
  ∧ Post.reblogId new = Post.reblogId old
  ∧ Post.createdAt new = Post.createdAt old
  ∧ Post.repliesCount new
    = Post.repliesCount old + increment_for (CreateInput.inReplyToId input) q
  ∧ Post.reblogsCount new
    = Post.reblogsCount old + increment_for (CreateInput.reblogId input) q.

(** The database after a committed [create], column by column: the new
    post is there, with the fields of the input and counters that start at
    0; every post that was there is there with its counters raised by what
    the input adds; no other post appeared; there is one File row and one
    Attachment row per upload, in the order of the uploads; the other
    tables are as they were. *)
Record commit_spec (env : Env) (ctx : Ctx) (input : CreateInput.t)
    (w w' : World) (cp : CreatedPost) (fs : list File.t) : Prop := mkCommitSpec {
  cs_permission : has_permission ctx input (w_db w) = true;
  cs_fresh : db_post (w_db w) !! cuid_at env (w_cuid w) = None;
  cs_new : ∃ row, db_post (w_db w') !! cuid_at env (w_cuid w) = Some row
                  ∧ post_after input (cuid_at env (w_cuid w)) (new_post env input w) row
                  ∧ cp_post cp = include_post (w_db w') row
                  ∧ cp_isReblogged cp = false
                  ∧ cp_isFavorited cp = false;
  cs_old : ∀ q old, db_post (w_db w) !! q = Some old →
                    ∃ new, db_post (w_db w') !! q = Some new
                           ∧ post_after input q old new;
  cs_none : ∀ q, q ≠ cuid_at env (w_cuid w) →
                 db_post (w_db w) !! q = None → db_post (w_db w') !! q = None;
  cs_uploads : Forall2 (λ u f, File.extension f = Upload.ext u) (uploads_of input) fs;
  cs_files_fresh : Forall (λ f, db_file (w_db w) !! File.id f = None) fs;
  cs_files_nodup : NoDup (File.id <$> fs);
  cs_files : db_file (w_db w') = list_to_map (file_entries fs) ∪ db_file (w_db w);
  cs_attachments : db_attachment (w_db w')
                   = (db_attachment (w_db w)
                      ++ attachments_for (cuid_at env (w_cuid w)) fs)%list;
  cs_favorite : db_favorite (w_db w') = db_favorite (w_db w);
  cs_profile : db_profile (w_db w') = db_profile (w_db w);
}.

Definition create_spec (env : Env) (ctx : Ctx) (input : CreateInput.t)
    (w : World) (res : (Exn + CreatedPost) * World) : Prop :=
  match res with
  | (inr cp, w') => ∃ fs, commit_spec env ctx input w w' cp fs
  | (inl e, w') =>
      w_db w' = w_db w
      ∧ if has_permission ctx input (w_db w) then True else e = forbidden
  end.

(** A reblog of P1 with two uploads; the second one is a JPEG staged under
    the extension png. *)
Definition sample_mismatch : CreateInput.t :=
  {| CreateInput.profileId := "alice";
     CreateInput.inReplyToId := None;
     CreateInput.reblogId := Some "P1";
     CreateInput.content := None;
     CreateInput.files := Some [sample_upload "k1" "png"; sample_upload "k2" "png"] |}.

Definition sample_jpeg : S3Object :=
  {| Body := [Byte.x4a]; ContentLength := Some 1%N |}.

Definition sample_jpeg_probe : ProbeResult :=
  {| pr_mime := "image/jpeg"; pr_type := "jpg"; pr_width := 30; pr_height := 20 |}.

(** The File row of the upload of [sample_reblog]: the probe finds a PNG of
    640 by 480. *)
Definition sample_file : File.t :=
  {| File.id := "c1";
     File.type := "IMAGE";
     File.url := "https://cdn.example/u0.png";
     File.mime := "image/png";
     File.extension := "png";
     File.name := "u0.png";
     File.size := 1;
     File.width := 480;
     File.height := 640 |}.

(** A reblog of a post that does not exist. *)
Definition sample_dangling : CreateInput.t :=
  {| CreateInput.profileId := "alice";
     CreateInput.inReplyToId := None;
     CreateInput.reblogId := Some "P9";
     CreateInput.content := Some "look";
     CreateInput.files := None |}.

(** [create] failed with [e] and was rolled back: the database is the one
    before the call, without a row for the post that had been inserted. *)
Definition rolled_back (env : Env) (ctx : Ctx) (input : CreateInput.t)
    (w : World) (post : Post.t) (e : Exn) : Prop :=
  ∃ w', create env ctx input w = (inl e, w')
        ∧ w_db w' = w_db w
        ∧ db_post (w_db w') !! Post.id post = None.













(** * The other procedures of the router *)

(** ** [getById] and [getRepliesById] *)

(** [findUniqueOrThrow({ where: { id } })], then the annotation of the one
    post. *)
Definition getById (db : DB) (id profileId : string) : Exn + list WithInteractions :=
  match db_post db !! id with
  | Some post => inr (computeInteractions db [include_post db post] (Some profileId))
  | None => inl (PrismaError "P2025")
  end.

Definition replies_where (id : string) : PostWhere :=
  {| where_profileId := Unset;
     where_content := Unset;
     where_reblogId := Unset;
     where_inReplyToId := Equals id;
     where_attachments_some := false |}.

Definition getRepliesById (db : DB) (id profileId : string) : list WithInteractions :=
  let replies := include_post db <$> post_findMany db (replies_where id) in
  computeInteractions db replies (Some profileId).

(** ** [getFeedByProfileId]

    The Follow table is read by this procedure only; it is passed beside
    the record of the other tables. *)

Module Follow.
Record t := mk { followerId : string; followedId : string }.
End Follow.

(** [prisma.follow.findMany({ where: { followerId } })]. *)
Definition follow_findMany (follow : list Follow.t) (followerId : string) : list Follow.t :=
  List.filter (λ f, bool_decide (Follow.followerId f = followerId)) follow.

(** [where: { inReplyToId: null, profileId: { in: ids } }]. *)
Definition feed_matches (ids : list string) (p : Post.t) : bool :=
  cond_holds IsNull (Post.inReplyToId p) && bool_decide (Post.profileId p ∈ ids).

Definition getFeedByProfileId (db : DB) (follow : list Follow.t) (profileId : string)
    : list WithInteractions :=
  let follows := follow_findMany follow profileId in
  let ids := profileId :: (Follow.followedId <$> follows) in
  let posts :=
    merge_sort createdAt_desc (List.filter (feed_matches ids) (post_rows db)) in
  computeInteractions db (include_post db <$> posts) (Some profileId).

(** ** [search]

    The username is a column of the Profile table that no other procedure
    of the router reads; it is given as a map from the profile id.  Whether
    [contains] looks at the case of the letters is the database's choice,
    so the substring test is an argument. *)

Record SearchInput := mkSearchInput {
  si_profileId : string;
  si_content : string;
  si_username : string;
}.

(** The local [filter] object, with its two optional keys. *)
Record SearchFilter := mkSearchFilter {
  sf_content : option string;
  sf_username : option string;
}.

Definition search_filter (input : SearchInput) : SearchFilter :=
  let filter := {| sf_content := None; sf_username := None |} in
  let filter :=
    if bool_decide (0 < String.length (si_content input))%nat
    then {| sf_content := Some (si_content input); sf_username := None |}
    else filter in
  let filter :=
    if bool_decide (0 < String.length (si_username input))%nat
    then {| sf_content := sf_content filter; sf_username := Some (si_username input) |}
    else filter in
  filter.

Definition search_matches (contains : string → string → bool)
    (usernames : gmap string string) (f : SearchFilter) (p : Post.t) : bool :=
  match sf_content f with
  | Some c =>
      match Post.content p with
      | Some text => contains text c
      | None => false
      end
  | None => true
  end
  && match sf_username f with
     | Some u => bool_decide (usernames !! Post.profileId p = Some u)
     | None => true
     end.

Definition search (contains : string → string → bool)
    (usernames : gmap string string) (db : DB) (input : SearchInput)
    : list WithInteractions :=
  let filter := search_filter input in
  let posts := List.filter (search_matches contains usernames filter) (post_rows db) in
  computeInteractions db (include_post db <$> posts) (Some (si_profileId input)).

(** Sample data for the procedures above: carol follows bob. *)
Definition sample_follow : list Follow.t :=
  [ {| Follow.followerId := "carol"; Follow.followedId := "bob" |} ].

(** A post with one upload whose staging key was never written. *)
Definition sample_unstaged : CreateInput.t :=
  {| CreateInput.profileId := "alice";
     CreateInput.inReplyToId := None;
     CreateInput.reblogId := None;
     CreateInput.content := Some "picture";
     CreateInput.files := Some [sample_upload "k9" "png"] |}.

(** ** Coherence of the database

    Every Post and File row is stored under its own id, and every
    Attachment row points to a post and to a file that exist. *)
Definition db_coherent (d : DB) : Prop :=
  (∀ k p, db_post d !! k = Some p → Post.id p = k)
  ∧ (∀ k f, db_file d !! k = Some f → File.id f = k)
  ∧ Forall (λ a, is_Some (db_post d !! Attachment.postId a)
                 ∧ is_Some (db_file d !! Attachment.fileId a))
      (db_attachment d).

(** The attachment of a file to a post, as the hydrated post carries it. *)
Definition attached (postId : string) (f : File.t) : Attachment.t * option File.t :=
  ({| Attachment.postId := postId; Attachment.fileId := File.id f |}, Some f).

(** What [create] answers to [sample_reblog] on the sample world. *)
Definition sample_created : CreatedPost :=
  {| cp_isReblogged := false;
     cp_isFavorited := false;
     cp_post :=
       include_post
         (w_db (snd (create sample_env sample_ctx sample_reblog sample_world)))
         (counted sample_reblog "c0" (new_post sample_env sample_reblog sample_world)) |}.

(** ** The counters against the rows

    The replies to a post and the reblogs of a post, as rows of the table,
    and the two statements that tie the counters to them: every counter is
    the number of rows that refer to the post, and every reference is to a
    post that exists. *)
Definition replies_to (d : DB) (k : string) : gmap string Post.t :=
  filter (λ kp : string * Post.t, Post.inReplyToId kp.2 = Some k) (db_post d).

Definition reblogs_of (d : DB) (k : string) : gmap string Post.t :=
  filter (λ kp : string * Post.t, Post.reblogId kp.2 = Some k) (db_post d).

Definition counters_exact (d : DB) : Prop :=
  ∀ k p, db_post d !! k = Some p →
    Post.repliesCount p = Z.of_nat (size (replies_to d k))
    ∧ Post.reblogsCount p = Z.of_nat (size (reblogs_of d k)).

Definition references_exist (d : DB) : Prop :=
  ∀ k p, db_post d !! k = Some p →
    (∀ r, Post.inReplyToId p = Some r → is_Some (db_post d !! r))
    ∧ (∀ r, Post.reblogId p = Some r → is_Some (db_post d !! r)).

(** * The navigation components

    The links of the side bar ([Content]) and of the bottom bar
    ([AuthedBottomBar]), without their icons and class names other than
    the highlight. *)

Inductive SessionStatus := authenticated | unauthenticated | loading.

Global Instance SessionStatus_eq_dec : EqDecision SessionStatus.
Proof. solve_decision. Defined.

Record NavItem := mkNavItem {
  nav_url : string;
  nav_text : string;
  nav_auth : bool;
}.

(** A rendered [Link]: its [href], its [key], and whether its class has
    ["text-red-700"]. *)
Record NavLink := mkNavLink {
  link_href : string;
  link_key : string;
  link_highlighted : bool;
}.

(** The url ["/" + username], with the empty string for the username
    while [profile.data] is not there; the argument is the username of the
    loaded profile, if one is loaded. *)
Definition profile_url (profile : option string) : string :=
  "/" +:+ match profile with
          | Some username => username
          | None => EmptyString
          end.

Definition sidebarItems (profile : option string) : list NavItem :=
  [ {| nav_url := "/"; nav_text := "Home"; nav_auth := false |};
    {| nav_url := "/search"; nav_text := "Search"; nav_auth := false |};
    {| nav_url := "/notifications"; nav_text := "Notifications"; nav_auth := true |};
    {| nav_url := profile_url profile; nav_text := "Profile"; nav_auth := true |};
    {| nav_url := "/settings"; nav_text := "Settings"; nav_auth := true |} ].

Definition activeItems (status : SessionStatus) (profile : option string) : list NavItem :=
  List.filter (λ item, negb (nav_auth item) || bool_decide (status = authenticated))
    (sidebarItems profile).

Definition side_links (status : SessionStatus) (profile : option string)
    (asPath : string) : list NavLink :=
  (λ item, {| link_href := nav_url item;
              link_key := ("side-bar" +:+ nav_url item) +:+ nav_text item;
              link_highlighted := bool_decide (nav_url item = asPath) |})
  <$> activeItems status profile.

(** [Array.prototype.indexOf]: the first position of the value, or -1. *)
Fixpoint indexOf (l : list string) (x : string) : Z :=
  match l with
  | [] => -1
  | y :: l =>
      if bool_decide (y = x) then 0
      else let i := indexOf l x in if bool_decide (i < 0) then -1 else i + 1
  end.

Definition side_top (status : SessionStatus) (profile : option string)
    (asPath : string) : Z :=
  indexOf (nav_url <$> activeItems status profile) asPath * 45.

(** [top >= 0 && <div style={{ top: top + "px" }} />]: the offset of the
    marker, when it is drawn. *)
Definition side_marker (status : SessionStatus) (profile : option string)
    (asPath : string) : option Z :=
  let top := side_top status profile asPath in
  if bool_decide (0 ≤ top) then Some top else None.

(** The links of [AuthedBottomBar]; the key of a link is its url. *)
Definition bottom_items (profile : option string) : list string :=
  [ "/"; "/search"; "/notifications"; profile_url profile ].

Definition bottom_links (profile : option string) (asPath : string) : list NavLink :=
  (λ url, {| link_href := url;
             link_key := url;
             link_highlighted := bool_decide (url = asPath) |})
  <$> bottom_items profile.

(** An input with five uploads. *)
Definition sample_five : CreateInput.t :=
  {| CreateInput.profileId := "alice";
     CreateInput.inReplyToId := None;
     CreateInput.reblogId := None;
     CreateInput.content := Some "album";
     CreateInput.files :=
       Some [sample_upload "k1" "png"; sample_upload "k2" "jpg";
             sample_upload "k3" "png"; sample_upload "k4" "png";
             sample_upload "k5" "png"] |}.

(** * Properties *)

(** ** The interaction annotation *)

Lemma cond_holds_Equals v x : cond_holds (Equals v) (Some x) = true ↔ v = x.
Proof. simpl. apply bool_decide_eq_true. Qed.

Lemma cond_holds_IsNull o : cond_holds IsNull o = true ↔ o = None.
Proof. destruct o; simpl; split; congruence. Qed.

Lemma cond_holds_NotNull o : cond_holds NotNull o = true ↔ is_Some o.
Proof.
  destruct o; simpl; split; intros H;
    first [done | by eexists | by destruct H].
Qed.

Lemma elem_of_post_rows db p :
  p ∈ post_rows db ↔ ∃ k, db_post db !! k = Some p.
Proof.
  unfold post_rows. rewrite list_elem_of_fmap. split.
  - intros [[k r] [-> H]]. exists k. by apply elem_of_map_to_list in H.
  - intros [k H]. exists (k, p). split; [done|]. by apply elem_of_map_to_list.
Qed.

Lemma elem_of_post_findMany db w p :
  p ∈ post_findMany db w ↔ (∃ k, db_post db !! k = Some p) ∧ post_matches db w p = true.
Proof.
  unfold post_findMany. rewrite list_elem_of_In, filter_In, <- list_elem_of_In.
  by rewrite elem_of_post_rows.
Qed.

Lemma includes_reblogIds db viewer id :
  includes (reblogIds_of db (Some viewer)) id = true ↔ in_reblog_set db viewer id.
Proof.
  unfold includes, reblogIds_of, in_reblog_set.
  rewrite bool_decide_eq_true, list_elem_of_fmap. split.
  - intros [r [Hid Hr]]. apply elem_of_post_findMany in Hr as [[k Hk] Hm].
    exists k, r. unfold post_matches, reblogs_where in Hm; simpl in Hm.
    repeat (apply andb_prop in Hm as [Hm ?]).
    apply bool_decide_eq_true in Hm.
    repeat split; try done. by apply cond_holds_IsNull.
  - intros (k & r & Hk & Hp & Hc & Hr). exists r. split; [done|].
    apply elem_of_post_findMany. split; [by exists k|].
    unfold post_matches, reblogs_where; simpl.
    rewrite Hp, Hc, Hr; simpl. by rewrite bool_decide_eq_true_2.
Qed.

Lemma includes_favoriteIds db viewer id :
  includes (favoriteIds_of db (Some viewer)) id = true ↔ in_favorite_set db viewer id.
Proof.
  unfold includes, favoriteIds_of, in_favorite_set, favorite_findMany.
  rewrite bool_decide_eq_true, list_elem_of_fmap. split.
  - intros [f [Hid Hf]]. exists f.
    apply list_elem_of_In, filter_In in Hf as [Hf Hc].
    apply list_elem_of_In in Hf. apply cond_holds_Equals in Hc.
    repeat split; congruence.
  - intros (f & Hf & Hp & Hid). exists f. split; [by rewrite Hid|].
    apply list_elem_of_In, filter_In. split; [by apply list_elem_of_In|].
    by apply cond_holds_Equals.
Qed.

(** C2: for a viewer, the output has the length and the order of the
    input, and the flags of every post, and of its reblog target when it
    has one, are the memberships of its id in the viewer's reblog set and
    favorite set. *)
Theorem computeInteractions_membership (db : DB) (posts : list HydratedPost)
    (viewer : string) :
  length (computeInteractions db posts (Some viewer)) = length posts
  ∧ Forall2 (annotation_spec db viewer) posts
      (computeInteractions db posts (Some viewer)).
Proof.
  unfold computeInteractions. split; [by rewrite length_fmap|].
  apply Forall2_fmap_r, Forall_Forall2_diag, Forall_forall. intros p _.
  unfold annotation_spec, flags_spec, annotate; simpl.
  split; [done|]. split.
  - split; [apply includes_reblogIds|apply includes_favoriteIds].
  - destruct (hp_reblog p) as [r|]; [|done].
    eexists. split; [done|]. simpl. split; [done|].
    split; [apply includes_reblogIds|apply includes_favoriteIds].
Qed.



(** C8: the nested annotation of an output post is null exactly when the
    input post has no reblog target; when it has one, the nested object is
    the target with its flags and with its own [reblog] set to null. *)
Theorem computeInteractions_nested (db : DB) (posts : list HydratedPost)
    (profileId : option string) :
  Forall2 (nested_spec db profileId) posts (computeInteractions db posts profileId).
Proof.
  unfold computeInteractions.
  apply Forall2_fmap_r, Forall_Forall2_diag, Forall_forall. intros p _.
  unfold nested_spec, annotate; simpl.
  destruct (hp_reblog p) as [r|]; simpl.
  - split; [split; congruence|]. eexists. by repeat split.
  - done.
Qed.

(** ** [getByProfileId] *)

Global Instance createdAt_desc_total : Total createdAt_desc.
Proof. intros p q. unfold createdAt_desc. lia. Qed.

Global Instance createdAt_desc_trans : Transitive createdAt_desc.
Proof. intros p q r. unfold createdAt_desc. lia. Qed.

Lemma computeInteractions_rows db posts profileId :
  wi_row <$> computeInteractions db posts profileId
  = (λ p, bp_row (hp_base p)) <$> posts.
Proof. unfold computeInteractions. by rewrite <- list_fmap_compose. Qed.

Lemma getByProfileId_rows db input :
  wi_row <$> getByProfileId db input
  = post_findMany_desc db (getByProfileId_where input).
Proof.
  unfold getByProfileId. rewrite computeInteractions_rows, <- list_fmap_compose.
  apply list_fmap_id.
Qed.

Lemma elem_of_post_findMany_desc db w p :
  p ∈ post_findMany_desc db w
  ↔ (∃ k, db_post db !! k = Some p) ∧ post_matches db w p = true.
Proof.
  unfold post_findMany_desc.
  rewrite (merge_sort_Permutation createdAt_desc).
  apply elem_of_post_findMany.
Qed.

Lemma getByProfileId_matches db input p :
  post_matches db (getByProfileId_where input) p = true
  ↔ Post.profileId p = gbp_profileId input
    ∧ profile_filter_spec db (gbp_filter input) p.
Proof.
  unfold post_matches, getByProfileId_where, getByProfileId_filter,
    profile_filter_spec; simpl.
  destruct (gbp_filter input) as [[]|]; simpl;
    rewrite ?andb_true_r, ?andb_true_iff, ?bool_decide_eq_true,
      ?negb_true_iff, ?bool_decide_eq_false, ?cond_holds_IsNull.
  3: destruct (Post.inReplyToId p).
  all: intuition congruence.
Qed.

Lemma Forall_wi_row (P : Post.t → Prop) (out : list WithInteractions) :
  Forall (λ o, P (wi_row o)) out ↔ Forall P (wi_row <$> out).
Proof. by rewrite Forall_fmap. Qed.

(** C10: [getByProfileId] returns posts of the requested profile, newest
    first; without a filter none of them is a reply, with ["media"] each
    has an attachment, and with ["with-replies"] every post of the profile
    is returned.  In each case the result holds exactly the posts of the
    profile that pass the filter. *)
Theorem getByProfileId_filters (db : DB) (input : GetByProfileIdInput) :
  getByProfileId_spec db input (getByProfileId db input).
Proof.
  assert (Hin : ∀ p, p ∈ wi_row <$> getByProfileId db input
                ↔ (∃ k, db_post db !! k = Some p)
                  ∧ Post.profileId p = gbp_profileId input
                  ∧ profile_filter_spec db (gbp_filter input) p).
  { intros p. rewrite getByProfileId_rows, elem_of_post_findMany_desc.
    by rewrite getByProfileId_matches. }
  unfold getByProfileId_spec. split; [|split; [|split; [|done]]].
  - apply (Forall_wi_row (λ p, Post.profileId p = gbp_profileId input)).
    apply Forall_forall. intros p Hp. by apply Hin in Hp as (_ & ? & _).
  - rewrite getByProfileId_rows. apply StronglySorted_merge_sort; apply _.
  - destruct (gbp_filter input) as [[]|]; [done| |].
    + apply Forall_forall. intros o Ho.
      assert (Hr : wi_row o ∈ wi_row <$> getByProfileId db input)
        by (apply list_elem_of_fmap; eauto).
      apply Hin in Hr as (_ & _ & Hr). simpl in Hr.
      unfold getByProfileId, computeInteractions in Ho.
      rewrite <- list_fmap_compose in Ho.
      apply list_elem_of_fmap in Ho as [q [-> Hq]]. simpl in *.
      unfold wi_row in Hr. simpl in Hr.
      intros Hnil. apply fmap_nil_inv in Hnil. done.
    + apply (Forall_wi_row (λ p, Post.inReplyToId p = None)).
      apply Forall_forall. intros p Hp.
      by apply Hin in Hp as (_ & _ & Hp).
Qed.


(** ** Input validation of [create] *)

Lemma create_refine_false input :
  create_refine input = false →
  ∀ env ctx w, ∃ issue, create env ctx input w = (inl (ZodError issue), w).
Proof.
  intros Hr env ctx w. unfold create, create_schema. rewrite Hr.
  destruct (CreateInput.files input) as [files|]; [|by eexists].
  destruct (negb (bool_decide (length files ≤ 4)%nat)); [by eexists|].
  destruct (negb (forallb upload_schema files)); by eexists.
Qed.

(** C5: an input with no [inReplyToId], no [reblogId], no [content] and no
    file is refused by the schema; the transaction is not run and the world,
    the database in it, is left as it was. *)
Theorem create_rejects_empty (env : Env) (ctx : Ctx) (input : CreateInput.t)
    (w : World) :
  CreateInput.inReplyToId input = None →
  CreateInput.reblogId input = None →
  CreateInput.content input = None →
  CreateInput.files input = None ∨ CreateInput.files input = Some [] →
  ∃ issue, create env ctx input w = (inl (ZodError issue), w).
Proof.
  intros Hi Hr Hc Hf. apply create_refine_false.
  unfold create_refine. rewrite Hi, Hr, Hc. by destruct Hf as [-> | ->].
Qed.

Lemma create_rejects_empty_witness :
  ∃ issue, create sample_env sample_ctx sample_empty sample_world
           = (inl (ZodError issue), sample_world).
Proof.
  apply (create_rejects_empty sample_env sample_ctx sample_empty sample_world);
    try reflexivity.
  right; reflexivity.
Defined.

(** ** [createPresignedUrls] *)

Lemma presign_loop_test (count : Q) (i : Z) :
  negb (Qle_bool count (inject_Z i)) = bool_decide (i < Qceiling count).
Proof.
  destruct (decide (i < Qceiling count)) as [H|H].
  - rewrite bool_decide_eq_true_2 by done. apply negb_true_iff, not_true_is_false.
    rewrite Qle_bool_iff. intros Hle. apply Qceiling_resp_le in Hle.
    rewrite Qceiling_Z in Hle. lia.
  - rewrite bool_decide_eq_false_2 by done. apply negb_false_iff, Qle_bool_iff.
    eapply Qle_trans; [apply Qle_ceiling|]. rewrite <- Zle_Qle. lia.
Qed.

Lemma uuid_advanced_0 w : uuid_advanced 0 w = w.
Proof. destruct w. unfold uuid_advanced; simpl. f_equal. lia. Qed.

(** The loop runs while [i] is below the ceiling of the count: [k] passes
    are left, and fuel for [k] passes is enough. *)
Lemma presign_loop_ceiling env (count : Q) (k : nat) :
  ∀ fuel i urls w,
    Z.of_nat k = Qceiling count - i → (k ≤ fuel)%nat →
    presign_loop env fuel i count urls w
    = (inr (Some (urls ++ presigned_entries env (w_uuid w) k)%list), uuid_advanced k w).
Proof.
  induction k as [|k IH]; intros fuel i urls w Hk Hfuel.
  - destruct fuel; simpl; rewrite presign_loop_test, bool_decide_eq_false_2 by lia;
      unfold ret; by rewrite app_nil_r, uuid_advanced_0.
  - destruct fuel as [|fuel]; [lia|]. simpl.
    rewrite presign_loop_test, bool_decide_eq_true_2 by lia.
    unfold mbind, M_bind, bind, uuidv4.
    rewrite IH by (simpl; lia). simpl.
    rewrite <- app_assoc. simpl. f_equal.
    unfold uuid_advanced; simpl. f_equal. lia.
Qed.

Lemma presigned_schema_true count :
  presigned_schema count = true ↔ (1 <= count)%Q ∧ (count <= 4)%Q.
Proof. unfold presigned_schema. by rewrite andb_true_iff, !Qle_bool_iff. Qed.

(** For any number the schema lets through, the call returns, and the
    number of entries is the count rounded up. *)
Lemma createPresignedUrls_ceiling env fuel count w :
  presigned_schema count = true → (4 ≤ fuel)%nat →
  createPresignedUrls env fuel count w
  = (inr (Some (presigned_entries env (w_uuid w) (Z.to_nat (Qceiling count)))),
     uuid_advanced (Z.to_nat (Qceiling count)) w)
  ∧ 1 ≤ Qceiling count ≤ 4.
Proof.
  intros Hs Hfuel.
  assert (Hc : 1 ≤ Qceiling count ≤ 4).
  { apply presigned_schema_true in Hs as [H1 H4].
    apply Qceiling_resp_le in H1, H4.
    change (Qceiling 1) with 1 in H1. change (Qceiling 4) with 4 in H4. lia. }
  split; [|done]. unfold createPresignedUrls. rewrite Hs.
  by rewrite (presign_loop_ceiling env count (Z.to_nat (Qceiling count))) by lia.
Qed.

Lemma sample_uuid_inj : Inj (=) (=) (uuid_at sample_env).
Proof.
  intros a b H. simpl in H. injection H as H. by apply (inj pretty).
Qed.

Lemma presigned_entries_keys env first n :
  pu_key <$> presigned_entries env first n = uuid_at env <$> seq first n.
Proof. unfold presigned_entries. by rewrite <- list_fmap_compose. Qed.

(** C9, for whole numbers: a count of 1, 2, 3 or 4 yields that many
    entries, one per fresh key of the generator in the order drawn, each
    with the URL signed for its key; the keys differ from one another when
    the generator does not repeat itself.  A count below 1 or above 4 is
    refused by the schema and nothing is generated. *)
Theorem createPresignedUrls_integer (env : Env) (fuel : nat) (w : World) :
  Inj (=) (=) (uuid_at env) →
  (4 ≤ fuel)%nat →
  (∀ n : Z, 1 ≤ n ≤ 4 →
     ∃ urls,
       createPresignedUrls env fuel (inject_Z n) w
       = (inr (Some urls), uuid_advanced (Z.to_nat n) w)
       ∧ urls = presigned_entries env (w_uuid w) (Z.to_nat n)
       ∧ length urls = Z.to_nat n
       ∧ NoDup (pu_key <$> urls)
       ∧ Forall (λ u, pu_url u = getSignedUrl env (S3_BUCKET env) (pu_key u)) urls)
  ∧ (∀ count : Q, (count < 1)%Q ∨ (4 < count)%Q →
       createPresignedUrls env fuel count w = (inl (ZodError "count"), w)).
Proof.
  intros Hinj Hfuel. split.
  - intros n Hn. eexists. split; [|split; [reflexivity|]].
    + assert (Hs : presigned_schema (inject_Z n) = true).
      { apply presigned_schema_true.
        change 1%Q with (inject_Z 1). change 4%Q with (inject_Z 4).
        rewrite <- !Zle_Qle. lia. }
      destruct (createPresignedUrls_ceiling env fuel (inject_Z n) w Hs Hfuel) as [Hrun _].
      by rewrite Qceiling_Z in Hrun.
    + split; [|split].
      * unfold presigned_entries. by rewrite length_fmap, length_seq.
      * rewrite presigned_entries_keys. apply NoDup_fmap_2; [done|].
        apply NoDup_ListNoDup, seq_NoDup.
      * unfold presigned_entries. apply Forall_fmap, Forall_forall. by intros.
  - intros count Hc. unfold createPresignedUrls.
    assert (Hs : presigned_schema count = false).
    { apply not_true_is_false. rewrite presigned_schema_true.
      intros [H1 H4]. destruct Hc as [Hc|Hc]; by apply Qlt_not_le in Hc. }
    by rewrite Hs.
Qed.

Lemma createPresignedUrls_integer_witness :
  (∀ n : Z, 1 ≤ n ≤ 4 →
     ∃ urls,
       createPresignedUrls sample_env 4 (inject_Z n) sample_world
       = (inr (Some urls), uuid_advanced (Z.to_nat n) sample_world)
       ∧ urls = presigned_entries sample_env (w_uuid sample_world) (Z.to_nat n)
       ∧ length urls = Z.to_nat n
       ∧ NoDup (pu_key <$> urls)
       ∧ Forall (λ u, pu_url u
                      = getSignedUrl sample_env (S3_BUCKET sample_env) (pu_key u)) urls)
  ∧ (∀ count : Q, (count < 1)%Q ∨ (4 < count)%Q →
       createPresignedUrls sample_env 4 count sample_world
       = (inl (ZodError "count"), sample_world)).
Proof.
  apply (createPresignedUrls_integer sample_env 4 sample_world).
  - exact sample_uuid_inj.
  - lia.
Defined.

(** C9, as stated: the count five halves passes the schema, and the loop
    runs for i = 0, 1 and 2; the three entries returned are not two and a
    half. *)
Lemma createPresignedUrls_fractional :
  presigned_schema (5 # 2) = true
  ∧ ∃ urls w',
      createPresignedUrls sample_env 4 (5 # 2) sample_world = (inr (Some urls), w')
      ∧ length urls = 3%nat
      ∧ ¬ (inject_Z (Z.of_nat (length urls)) == 5 # 2)%Q.
Proof.
  split; [reflexivity|]. eexists _, _.
  split; [vm_compute; reflexivity|]. split; [reflexivity|].
  simpl. unfold Qeq. simpl. lia.
Qed.

(** ** The write transaction *)

Lemma bind_inr {A B} (m : M A) (k : A → M B) w b w' :
  (m ≫= k) w = (inr b, w') →
  ∃ a w1, m w = (inr a, w1) ∧ k a w1 = (inr b, w').
Proof.
  unfold mbind, M_bind, bind. destruct (m w) as [[e|a] w1]; [done|]. eauto.
Qed.

Lemma bind_inl_l {A B} (m : M A) (k : A → M B) w e w' :
  m w = (inl e, w') → (m ≫= k) w = (inl e, w').
Proof. unfold mbind, M_bind, bind. by intros ->. Qed.

Lemma bind_inr_l {A B} (m : M A) (k : A → M B) w a w1 :
  m w = (inr a, w1) → (m ≫= k) w = k a w1.
Proof. unfold mbind, M_bind, bind. by intros ->. Qed.

Lemma transaction_inl {A} (body : M A) w e w' :
  transaction body w = (inl e, w') → w_db w' = w_db w.
Proof.
  unfold transaction. destruct (body w) as [[e1|a] w1]; [|done].
  by intros [= _ <-].
Qed.

Lemma transaction_inr {A} (body : M A) w a w' :
  transaction body w = (inr a, w') → body w = (inr a, w').
Proof.
  unfold transaction. destruct (body w) as [[e1|a1] w1]; [done|]. by intros [= -> ->].
Qed.

Lemma post_create_inr env input w post w1 :
  post_create env (CreateInput.inReplyToId input) (CreateInput.reblogId input)
    (CreateInput.profileId input) (CreateInput.content input) w = (inr post, w1) →
  post = new_post env input w
  ∧ db_post (w_db w) !! Post.id post = None
  ∧ w_db w1 = set_post (<[Post.id post := post]> (db_post (w_db w))) (w_db w).
Proof.
  unfold post_create, mbind, M_bind, bind, cuid, post_insert; simpl.
  destruct (db_post (w_db w) !! cuid_at env (w_cuid w)) eqn:Hl; [done|].
  intros [= <- <-]. by repeat split.
Qed.

Lemma update_if_truthy_inr o data w w' :
  update_if_truthy o data w = (inr (), w') →
  ∃ posts, w_db w' = set_post posts (w_db w)
    ∧ ∀ q, posts !! q
           = (if is_target o q then apply_data data else id) <$> db_post (w_db w) !! q.
Proof.
  unfold update_if_truthy, is_target, truthy.
  destruct o as [v|]; [destruct (decide (v = EmptyString)) as [->|Hv]|].
  - simpl. intros [= <-]. exists (db_post (w_db w)). split; [by destruct (w_db w)|].
    intros q. simpl. by rewrite option_fmap_id.
  - rewrite bool_decide_eq_false_2 by done. unfold post_update.
    destruct (db_post (w_db w) !! v) as [p|] eqn:Hp; [|done].
    intros [= <-]. eexists. split; [done|]. intros q. simpl.
    destruct (decide (v = q)) as [<-|Hq].
    + rewrite bool_decide_eq_true_2 by done. by rewrite lookup_insert_eq, Hp.
    + rewrite bool_decide_eq_false_2 by congruence.
      by rewrite lookup_insert_ne, option_fmap_id.
  - intros [= <-]. exists (db_post (w_db w)). split; [by destruct (w_db w)|].
    intros q. simpl. by rewrite option_fmap_id.
Qed.

Lemma hasPermission_eq ctx input w :
  (r ← profile_findFirst (CreateInput.profileId input) (session_user_id ctx);
   ret (bool_decide (is_Some r))) w
  = (inr (has_permission ctx input (w_db w)), w).
Proof.
  unfold mbind, M_bind, bind, profile_findFirst, ret, has_permission.
  destruct (db_profile (w_db w) !! CreateInput.profileId input) as [p|]; [|done].
  by destruct (bool_decide (Profile.userId p = session_user_id ctx)).
Qed.

Lemma create_post_unfold env ctx input w :
  create_post env ctx input w
  = if has_permission ctx input (w_db w)
    then (post ← post_create env (CreateInput.inReplyToId input)
                    (CreateInput.reblogId input) (CreateInput.profileId input)
                    (CreateInput.content input);
          update_if_truthy (CreateInput.inReplyToId input) repliesCount_increment;;
          update_if_truthy (CreateInput.reblogId input) reblogsCount_increment;;
          ret post) w
    else (inl forbidden, w).
Proof.
  unfold create_post. rewrite (bind_inr_l _ _ _ _ _ (hasPermission_eq ctx input w)).
  by destruct (has_permission ctx input (w_db w)).
Qed.

Lemma create_post_inr env ctx input w post wa :
  create_post env ctx input w = (inr post, wa) →
  has_permission ctx input (w_db w) = true
  ∧ post = new_post env input w
  ∧ db_post (w_db w) !! Post.id post = None
  ∧ ∃ posts, w_db wa = set_post posts (w_db w)
      ∧ ∀ q, posts !! q
             = counted input q <$> <[Post.id post := post]> (db_post (w_db w)) !! q.
Proof.
  rewrite create_post_unfold.
  destruct (has_permission ctx input (w_db w)); [|done].
  intros H.
  apply bind_inr in H as (p & w1 & Hc & H).
  apply bind_inr in H as ([] & w2 & Hu1 & H).
  apply bind_inr in H as ([] & w3 & Hu2 & H).
  injection H as <- <-.
  apply post_create_inr in Hc as (-> & Hfresh & Hw1).
  apply update_if_truthy_inr in Hu1 as (t2 & Hw2 & Ht2).
  apply update_if_truthy_inr in Hu2 as (t3 & Hw3 & Ht3).
  split; [done|]. split; [done|]. split; [done|].
  exists t3. split.
  - by rewrite Hw3, Hw2, Hw1.
  - intros q. rewrite Ht3, Hw2. simpl. rewrite Ht2, Hw1. simpl.
    unfold counted.
    destruct (<[_ := _]> (db_post (w_db w)) !! q) as [p|]; simpl; [|done].
    by destruct (is_target (CreateInput.inReplyToId input) q),
      (is_target (CreateInput.reblogId input) q).
Qed.

Lemma create_post_inl env ctx input w e wa :
  create_post env ctx input w = (inl e, wa) →
  has_permission ctx input (w_db w) = false → e = forbidden.
Proof.
  rewrite create_post_unfold. intros H Hp. rewrite Hp in H. by injection H as <- _.
Qed.

Lemma relocate_upload_inv env upload w r w' :
  relocate_upload env upload w = (r, w') → w_db w' = w_db w.
Proof.
  unfold relocate_upload, mbind, M_bind, bind, uuidv4, CopyObject, DeleteObject,
    GetObject, run_probe, ret; simpl.
  destruct (w_s3 w !! Upload.key upload) as [o|]; simpl; [|by intros [= _ <-]].
  destruct (delete _ _ !! _) as [o'|]; simpl; [|by intros [= _ <-]].
  destruct (probe env (Body o')) as [e|ft]; by intros [= _ <-].
Qed.

Lemma relocate_upload_inr env upload w name object fileType w' :
  relocate_upload env upload w = (inr (name, object, fileType), w') →
  name = uuid_at env (w_uuid w) +:+ "." +:+ Upload.ext upload
  ∧ probe env (Body object) = inr fileType
  ∧ w_s3 w' !! name = Some object
  ∧ w_cuid w' = w_cuid w.
Proof.
  unfold relocate_upload, mbind, M_bind, bind, uuidv4, CopyObject, DeleteObject,
    GetObject, run_probe, ret; simpl.
  destruct (w_s3 w !! Upload.key upload) as [o|]; simpl; [|done].
  destruct (delete _ _ !! _) as [o'|] eqn:Ho'; simpl; [|done].
  destruct (probe env (Body o')) as [e|ft] eqn:Hp; [done|].
  intros [= <- <- <- <-]. by repeat split.
Qed.

Lemma persist_upload_inl env postId upload name object fileType w :
  ContentLength object = None ∨ ContentLength object = Some 0%N
  ∨ fileType = None
  ∨ (∃ ft, fileType = Some ft ∧ Upload.ext upload ≠ pr_type ft) →
  persist_upload env postId upload name object fileType w = (inl invalid_file, w).
Proof.
  unfold persist_upload. intros [H|[H|[H|(ft & H & Hne)]]]; rewrite H.
  - done.
  - by destruct fileType.
  - by destruct (ContentLength object).
  - destruct (ContentLength object) as [size|]; [|done].
    rewrite (bool_decide_eq_false_2 _ Hne). by rewrite orb_true_r.
Qed.

Lemma persist_upload_inr env postId upload name object fileType w w' :
  persist_upload env postId upload name object fileType w = (inr (), w') →
  ∃ size ft f,
    ContentLength object = Some size ∧ size ≠ 0%N
    ∧ fileType = Some ft ∧ Upload.ext upload = pr_type ft
    ∧ File.id f = cuid_at env (w_cuid w)
    ∧ File.name f = name
    ∧ File.extension f = Upload.ext upload
    ∧ File.size f = size
    ∧ File.mime f = pr_mime ft
    ∧ File.width f = pr_height ft
    ∧ File.height f = pr_width ft
    ∧ db_file (w_db w) !! File.id f = None
    ∧ w_db w'
      = set_attachment
          (db_attachment (w_db w)
           ++ [{| Attachment.postId := postId; Attachment.fileId := File.id f |}])
          (set_file (<[File.id f := f]> (db_file (w_db w))) (w_db w)).
Proof.
  unfold persist_upload.
  destruct (ContentLength object) as [size|]; [|done].
  destruct fileType as [ft|]; [|done].
  destruct (decide (size = 0%N)) as [->|Hsize]; [done|].
  rewrite (bool_decide_eq_false_2 _ Hsize). simpl.
  destruct (decide (Upload.ext upload = pr_type ft)) as [Hext|Hext];
    [|by rewrite (bool_decide_eq_false_2 _ Hext)].
  rewrite (bool_decide_eq_true_2 _ Hext). simpl.
  unfold file_create, mbind, M_bind, bind, cuid, file_insert, attachment_create; simpl.
  destruct (db_file (w_db w) !! cuid_at env (w_cuid w)) eqn:Hl; [done|].
  intros [= <-].
  exists size, ft,
    (File.mk (cuid_at env (w_cuid w)) "IMAGE" (S3_WEB_ENDPOINT env +:+ "/" +:+ name)
       (pr_mime ft) (Upload.ext upload) name size (pr_height ft) (pr_width ft)).
  by repeat split.
Qed.

Lemma promote_upload_inr env postId upload w w' :
  promote_upload env postId upload w = (inr (), w') →
  ∃ name object ft w1 f,
    relocate_upload env upload w = (inr (name, object, Some ft), w1)
    ∧ probe env (Body object) = inr (Some ft)
    ∧ File.name f = name
    ∧ File.extension f = Upload.ext upload
    ∧ File.width f = pr_height ft
    ∧ File.height f = pr_width ft
    ∧ db_file (w_db w) !! File.id f = None
    ∧ w_db w'
      = set_attachment
          (db_attachment (w_db w)
           ++ [{| Attachment.postId := postId; Attachment.fileId := File.id f |}])
          (set_file (<[File.id f := f]> (db_file (w_db w))) (w_db w)).
Proof.
  unfold promote_upload. intros H.
  apply bind_inr in H as ([[name object] fileType] & w1 & Hr & Hp).
  pose proof (relocate_upload_inv _ _ _ _ _ Hr) as Hdb.
  pose proof (relocate_upload_inr _ _ _ _ _ _ _ Hr) as (_ & Hprobe & _).
  apply persist_upload_inr in Hp
    as (size & ft & f & _ & _ & -> & _ & _ & Hn & He & _ & _ & Hw & Hh & Hf & Hw').
  rewrite Hdb in Hf, Hw'. exists name, object, ft, w1, f. by repeat split.
Qed.

Lemma file_entries_keys fs : (file_entries fs).*1 = File.id <$> fs.
Proof. unfold file_entries. by rewrite <- list_fmap_compose. Qed.

Lemma promote_files_inr env postId uploads :
  ∀ w w', promote_files env postId uploads w = (inr (), w') →
  ∃ fs, Forall2 (λ u f, File.extension f = Upload.ext u) uploads fs
    ∧ Forall (λ f, db_file (w_db w) !! File.id f = None) fs
    ∧ NoDup (File.id <$> fs)
    ∧ w_db w'
      = set_attachment (db_attachment (w_db w) ++ attachments_for postId fs)
          (set_file (list_to_map (file_entries fs) ∪ db_file (w_db w)) (w_db w)).
Proof.
  induction uploads as [|u rest IH]; intros w w' H; simpl in H.
  - injection H as <-. exists []. repeat split; try constructor.
    simpl. rewrite app_nil_r, (left_id_L ∅ (∪)). by destruct (w_db w).
  - apply bind_inr in H as ([] & w1 & Hstep & Hrest).
    apply promote_upload_inr in Hstep
      as (name & object & ft & w0 & f & _ & _ & _ & Hext & _ & _ & Hfresh & Hw1).
    apply IH in Hrest as (fs & Hexts & Hfs & Hnd & Hw').
    rewrite Hw1 in Hfs, Hw'. simpl in Hfs, Hw'.
    assert (Hne : Forall (λ f', File.id f' ≠ File.id f
                                ∧ db_file (w_db w) !! File.id f' = None) fs).
    { eapply Forall_impl; [exact Hfs|]. intros f' Hf'. simpl in Hf'.
      apply lookup_insert_None in Hf' as [? ?]. by split. }
    assert (Hnotin : File.id f ∉ File.id <$> fs).
    { intros Hin. apply list_elem_of_fmap in Hin as (f' & Heq & Hin).
      rewrite Forall_forall in Hne. destruct (Hne f' Hin) as [Hneq _]. congruence. }
    exists (f :: fs). split; [by constructor|]. split; [|split].
    + constructor; [done|]. eapply Forall_impl; [exact Hne|]. by intros f' [_ ?].
    + simpl. by constructor.
    + rewrite Hw'. simpl. rewrite <- app_assoc. simpl.
      rewrite <- insert_union_l, insert_union_r; [done|].
      apply not_elem_of_list_to_map. by rewrite file_entries_keys.
Qed.

Lemma promote_files_app env postId pre rest w :
  promote_files env postId (pre ++ rest)%list w
  = (promote_files env postId pre;; promote_files env postId rest) w.
Proof.
  revert w. induction pre as [|u pre IH]; intros w; simpl; [done|].
  unfold mbind, M_bind, bind in *.
  destruct (promote_upload env postId u w) as [[e|[]] w1]; [done|].
  apply IH.
Qed.

Lemma create_tx_inr env ctx input w cp w' :
  create_tx env ctx input w = (inr cp, w') →
  ∃ fs, committed env ctx input w w' cp fs.
Proof.
  unfold create_tx. intros H.
  apply bind_inr in H as (post & wa & Hpost & H).
  apply bind_inr in H as ([] & wb & Hfiles & H).
  apply bind_inr in H as (hp & wc & Hread & H).
  injection H as <- <-.
  apply create_post_inr in Hpost as (Hperm & -> & Hfresh & posts & Hwa & Hposts).
  assert (Hfs : ∃ fs,
    Forall2 (λ u f, File.extension f = Upload.ext u) (uploads_of input) fs
    ∧ Forall (λ f, db_file (w_db wa) !! File.id f = None) fs
    ∧ NoDup (File.id <$> fs)
    ∧ w_db wb
      = set_attachment
          (db_attachment (w_db wa)
           ++ attachments_for (Post.id (new_post env input w)) fs)
          (set_file (list_to_map (file_entries fs) ∪ db_file (w_db wa)) (w_db wa))).
  { unfold uploads_of. destruct (CreateInput.files input) as [files|]; simpl.
    - by apply promote_files_inr in Hfiles.
    - injection Hfiles as <-. exists []. repeat split; try constructor.
      simpl. rewrite app_nil_r, (left_id_L ∅ (∪)). by destruct (w_db wa). }
  destruct Hfs as (fs & Hexts & Hfs & Hnd & Hwb).
  rewrite Hwa in Hfs, Hwb. simpl in Hfs, Hwb.
  unfold post_findUniqueOrThrow in Hread.
  destruct (db_post (w_db wb) !! Post.id (new_post env input w)) as [row|] eqn:Hrow;
    [|done].
  injection Hread as <- <-.
  exists fs. split; try done.
  - intros q. rewrite Hwb. simpl. apply Hposts.
  - by rewrite Hwb.
  - by rewrite Hwb.
  - by rewrite Hwb.
  - by rewrite Hwb.
  - simpl. repeat split; try done. by exists row.
Qed.

Lemma create_tx_inl env ctx input w e w' :
  create_tx env ctx input w = (inl e, w') →
  has_permission ctx input (w_db w) = false → e = forbidden.
Proof.
  unfold create_tx, mbind at 1, M_bind, bind. intros H Hp.
  destruct (create_post env ctx input w) as [[e0|post] wa] eqn:Hpost.
  - injection H as <- _. by eapply create_post_inl.
  - apply create_post_inr in Hpost as [Hperm _]. congruence.
Qed.

Lemma is_target_spec (o : option string) (q : string) :
  is_target o q = true ↔ o = Some q ∧ q ≠ EmptyString.
Proof.
  unfold is_target, truthy. destruct o as [v|]; simpl.
  - rewrite andb_true_iff, negb_true_iff, bool_decide_eq_false, bool_decide_eq_true.
    split.
    + intros [Hv [= ->]]. by split.
    + intros [[= ->] Hq]. by split.
  - split; [done|]. by intros [? _].
Qed.

Lemma increment_for_is_target (o : option string) (q : string) :
  increment_for o q = if is_target o q then 1 else 0.
Proof.
  unfold increment_for. pose proof (is_target_spec o q) as H.
  destruct (is_target o q); case_decide; try done.
  - exfalso. tauto.
  - exfalso. assert (false = true) by tauto. done.
Qed.

Lemma counted_post_after input q p : post_after input q p (counted input q p).
Proof.
  unfold post_after. rewrite !increment_for_is_target. unfold counted.
  destruct (is_target (CreateInput.inReplyToId input) q),
    (is_target (CreateInput.reblogId input) q); simpl; repeat split; lia.
Qed.

Lemma committed_commit_spec env ctx input w w' cp fs :
  committed env ctx input w w' cp fs → commit_spec env ctx input w w' cp fs.
Proof.
  intros Hc. pose proof (c_posts _ _ _ _ _ _ _ Hc) as Hposts. simpl in Hposts.
  pose proof (c_fresh _ _ _ _ _ _ _ Hc) as Hfresh. simpl in Hfresh.
  split.
  - apply (c_permission _ _ _ _ _ _ _ Hc).
  - done.
  - destruct (c_result _ _ _ _ _ _ _ Hc) as (Hr & Hf & row & Hrow & Hcp).
    simpl in Hrow. exists row. split; [done|]. split; [|done].
    rewrite Hposts, lookup_insert_eq in Hrow. injection Hrow as <-.
    apply counted_post_after.
  - intros q old Hold. exists (counted input q old). split.
    + rewrite Hposts, lookup_insert_ne; [by rewrite Hold|]. congruence.
    + apply counted_post_after.
  - intros q Hq Hnone. by rewrite Hposts, lookup_insert_ne, Hnone.
  - apply (c_uploads _ _ _ _ _ _ _ Hc).
  - apply (c_files_fresh _ _ _ _ _ _ _ Hc).
  - apply (c_files_nodup _ _ _ _ _ _ _ Hc).
  - apply (c_files _ _ _ _ _ _ _ Hc).
  - apply (c_attachments _ _ _ _ _ _ _ Hc).
  - apply (c_favorite _ _ _ _ _ _ _ Hc).
  - apply (c_profile _ _ _ _ _ _ _ Hc).
Qed.

(** C1: a call with a valid input either commits, and then the new post,
    the increments of the counters, and a File row and an Attachment row
    for each upload are in the database, or it fails, and then the database
    is the one the call started from; in particular a caller who does not
    own the profile gets the permission error and nothing is written. *)
Theorem create_atomic (env : Env) (ctx : Ctx) (input : CreateInput.t) (w : World) :
  create_schema input = None →
  create_spec env ctx input w (create env ctx input w).
Proof.
  intros Hs. unfold create, create_spec. rewrite Hs.
  destruct (transaction (create_tx env ctx input) w) as [[e|cp] w'] eqn:Htx.
  - split; [by eapply transaction_inl|].
    destruct (has_permission ctx input (w_db w)) eqn:Hp; [done|].
    unfold transaction in Htx.
    destruct (create_tx env ctx input w) as [[e0|cp0] w0] eqn:Hbody; [|done].
    injection Htx as <- _. by eapply create_tx_inl.
  - apply transaction_inr in Htx. apply create_tx_inr in Htx as [fs Hc].
    exists fs. by apply committed_commit_spec.
Qed.

Lemma create_atomic_witness :
  create_spec sample_env sample_ctx sample_reblog sample_world
    (create sample_env sample_ctx sample_reblog sample_world).
Proof.
  apply (create_atomic sample_env sample_ctx sample_reblog sample_world).
  reflexivity.
Defined.

(** The two outcomes on the sample world: the reblog of P1 by its owner
    commits, the same call from another account is refused. *)
Example create_sample_commits :
  ∃ cp w', create sample_env sample_ctx sample_reblog sample_world = (inr cp, w').
Proof. eexists _, _. vm_compute. reflexivity. Qed.

Example create_sample_forbidden :
  ∃ w', create sample_env {| session_user_id := "user2" |} sample_reblog sample_world
        = (inl forbidden, w')
        ∧ w_db w' = sample_db.
Proof. eexists. split; vm_compute; reflexivity. Qed.

(** A failure of one pass of the loop is the failure of the call, and the
    transaction restores the database. *)
Lemma create_fails_in_loop env ctx input w pre rest upload post w0 w1 e w2 :
  create_schema input = None →
  CreateInput.files input = Some (pre ++ upload :: rest)%list →
  create_post env ctx input w = (inr post, w0) →
  promote_files env (Post.id post) pre w0 = (inr (), w1) →
  promote_upload env (Post.id post) upload w1 = (inl e, w2) →
  create env ctx input w = (inl e, set_db (w_db w) w2).
Proof.
  intros Hs Hfiles Hpost Hpre Hstep.
  unfold create. rewrite Hs. unfold transaction, create_tx.
  rewrite (bind_inr_l _ _ _ _ _ Hpost), Hfiles.
  assert (Hloop : promote_files env (Post.id post) (pre ++ upload :: rest)%list w0
                  = (inl e, w2)).
  { rewrite promote_files_app, (bind_inr_l _ _ _ _ _ Hpre). simpl.
    by apply bind_inl_l. }
  by rewrite (bind_inl_l _ _ _ _ _ Hloop).
Qed.

(** A reblog of a post that is not there: the new post is inserted, the
    update of the counter fails, and the insert is undone. *)
Example create_sample_missing_target :
  ∃ w', create sample_env sample_ctx sample_dangling sample_world
        = (inl (PrismaError "P2025"), w')
        ∧ w_db w' = sample_db.
Proof. eexists. split; vm_compute; reflexivity. Qed.

(** A rejection by the probe, or by the object store, is not turned into
    the invalid file error: it is the error of the call, and the database
    is rolled back all the same. *)
Lemma create_relocate_failure env ctx input w pre rest upload post w0 w1 w2 e :
  create_schema input = None →
  CreateInput.files input = Some (pre ++ upload :: rest)%list →
  create_post env ctx input w = (inr post, w0) →
  promote_files env (Post.id post) pre w0 = (inr (), w1) →
  relocate_upload env upload w1 = (inl e, w2) →
  ∃ w', create env ctx input w = (inl e, w') ∧ w_db w' = w_db w.
Proof.
  intros Hs Hfiles Hpost Hpre Hrel.
  exists (set_db (w_db w) w2). split; [|done].
  eapply create_fails_in_loop; [done..|].
  unfold promote_upload. by apply bind_inl_l.
Qed.





(** The extension mismatch of the sample is refused as an invalid file. *)
Example create_sample_invalid_file :
  rolled_back sample_env sample_ctx sample_mismatch sample_world
    (new_post sample_env sample_mismatch sample_world) invalid_file.
Proof. eexists. split; [vm_compute; reflexivity|]. split; vm_compute; reflexivity. Qed.


Lemma promote_files_lookup env postId uploads w w' f :
  promote_files env postId uploads w = (inr (), w') →
  db_file (w_db w) !! File.id f = Some f →
  db_file (w_db w') !! File.id f = Some f.
Proof.
  intros H Hf. apply promote_files_inr in H as (fs & _ & Hfresh & _ & ->). simpl.
  apply lookup_union_Some_raw. right. split; [|done].
  apply not_elem_of_list_to_map. rewrite file_entries_keys.
  intros Hin. apply list_elem_of_fmap in Hin as (f' & Heq & Hin).
  rewrite Forall_forall in Hfresh. specialize (Hfresh f' Hin).
  rewrite <- Heq in Hfresh. congruence.
Qed.

(** A File row that the loop added was persisted by one of its passes:
    the uploads split around the upload of that pass, and the row carries
    what the probe found for the object fetched in it. *)
Lemma promote_files_new_row env postId uploads :
  ∀ w w' k f,
    promote_files env postId uploads w = (inr (), w') →
    db_file (w_db w') !! k = Some f →
    db_file (w_db w) !! k = None →
    ∃ pre upload rest w1 name object ft w2,
      uploads = (pre ++ upload :: rest)%list
      ∧ promote_files env postId pre w = (inr (), w1)
      ∧ relocate_upload env upload w1 = (inr (name, object, Some ft), w2)
      ∧ probe env (Body object) = inr (Some ft)
      ∧ File.id f = k
      ∧ File.name f = name
      ∧ File.extension f = Upload.ext upload
      ∧ File.width f = pr_height ft
      ∧ File.height f = pr_width ft.
Proof.
  induction uploads as [|u rest IH]; intros w w' k f H Hnew Hold; simpl in H.
  - injection H as <-. congruence.
  - apply bind_inr in H as ([] & w1 & Hstep & Hrest).
    pose proof Hstep as Hstep'.
    apply promote_upload_inr in Hstep'
      as (name & object & ft & w0 & f0 & Hrel & Hprobe & Hn & He & Hw & Hh & Hfresh & Hw1).
    destruct (decide (k = File.id f0)) as [->|Hk].
    + assert (Hf0 : db_file (w_db w') !! File.id f0 = Some f0).
      { eapply promote_files_lookup; [exact Hrest|].
        rewrite Hw1. simpl. apply lookup_insert_eq. }
      assert (f = f0) as -> by congruence.
      exists [], u, rest, w, name, object, ft, w0. by repeat split.
    + assert (Hold1 : db_file (w_db w1) !! k = None).
      { rewrite Hw1. simpl. by rewrite lookup_insert_ne. }
      destruct (IH w1 w' k f Hrest Hnew Hold1)
        as (pre & upload & rest' & w2 & name' & object' & ft' & w3
            & -> & Hpre & Hrel' & Hfacts).
      exists (u :: pre), upload, rest', w2, name', object', ft', w3.
      split; [done|]. split; [|by split].
      simpl. by rewrite (bind_inr_l _ _ _ _ _ Hstep).
Qed.

(** C6: every File row that a successful [create] added to the table was
    persisted by the promotion of one of the uploads, and its width is the
    height, its height the width, that the probe found for the object
    fetched for that upload. *)
Theorem create_file_dimensions (env : Env) (ctx : Ctx) (input : CreateInput.t)
    (w w' : World) (cp : CreatedPost) (k : string) (f : File.t) :
  create env ctx input w = (inr cp, w') →
  db_file (w_db w') !! k = Some f →
  db_file (w_db w) !! k = None →
  ∃ pre upload rest post w0 w1 name object ft w2,
    CreateInput.files input = Some (pre ++ upload :: rest)%list
    ∧ create_post env ctx input w = (inr post, w0)
    ∧ promote_files env (Post.id post) pre w0 = (inr (), w1)
    ∧ relocate_upload env upload w1 = (inr (name, object, Some ft), w2)
    ∧ probe env (Body object) = inr (Some ft)
    ∧ File.name f = name
    ∧ File.width f = pr_height ft
    ∧ File.height f = pr_width ft.
Proof.
  unfold create. destruct (create_schema input); [done|].
  intros H Hnew Hold. apply transaction_inr in H. unfold create_tx in H.
  apply bind_inr in H as (post & w0 & Hpost & H).
  apply bind_inr in H as ([] & wb & Hfiles & H).
  apply bind_inr in H as (hp & wc & Hread & H).
  injection H as _ <-.
  assert (wc = wb) as ->.
  { unfold post_findUniqueOrThrow in Hread.
    destruct (db_post (w_db wb) !! Post.id post); [|done]. by injection Hread. }
  assert (Hold0 : db_file (w_db w0) !! k = None).
  { apply create_post_inr in Hpost as (_ & _ & _ & posts & -> & _). done. }
  destruct (CreateInput.files input) as [files|].
  - destruct (promote_files_new_row _ _ _ _ _ _ _ Hfiles Hnew Hold0)
      as (pre & upload & rest & w1 & name & object & ft & w2
          & -> & Hpre & Hrel & Hprobe & _ & Hn & _ & Hw & Hh).
    exists pre, upload, rest, post, w0, w1, name, object, ft, w2. by repeat split.
  - injection Hfiles as <-. congruence.
Qed.

Lemma create_file_dimensions_witness :
  ∃ pre upload rest post w0 w1 name object ft w2,
    CreateInput.files sample_reblog = Some (pre ++ upload :: rest)%list
    ∧ create_post sample_env sample_ctx sample_reblog sample_world = (inr post, w0)
    ∧ promote_files sample_env (Post.id post) pre w0 = (inr (), w1)
    ∧ relocate_upload sample_env upload w1 = (inr (name, object, Some ft), w2)
    ∧ probe sample_env (Body object) = inr (Some ft)
    ∧ File.name sample_file = name
    ∧ File.width sample_file = pr_height ft
    ∧ File.height sample_file = pr_width ft.
Proof.
  apply (create_file_dimensions sample_env sample_ctx sample_reblog sample_world
           (snd (create sample_env sample_ctx sample_reblog sample_world))
           {| cp_isReblogged := false; cp_isFavorited := false;
              cp_post := include_post
                (w_db (snd (create sample_env sample_ctx sample_reblog sample_world)))
                (counted sample_reblog "c0"
                   (new_post sample_env sample_reblog sample_world)) |}
           "c1" sample_file).
  - vm_compute; reflexivity.
  - vm_compute; reflexivity.
  - vm_compute; reflexivity.
Defined.

(** On the sample world the probe finds 640 by 480 and the row says 480 by
    640. *)
Example promote_upload_sample :
  ∃ f, db_file (w_db (snd (promote_upload sample_env "P1" (sample_upload "k1" "png")
                             sample_world))) !! "c0" = Some f
       ∧ File.width f = 480%N ∧ File.height f = 640%N.
Proof. eexists. split; [vm_compute; reflexivity|]. by split. Qed.

Lemma counted_content input q p : Post.content (counted input q p) = Post.content p.
Proof.
  unfold counted.
  by destruct (is_target (CreateInput.inReplyToId input) q),
    (is_target (CreateInput.reblogId input) q).
Qed.

Lemma counted_reblogsCount input q p :
  Post.reblogsCount (counted input q p)
  = Post.reblogsCount p + (if is_target (CreateInput.reblogId input) q then 1 else 0).
Proof.
  unfold counted.
  destruct (is_target (CreateInput.inReplyToId input) q),
    (is_target (CreateInput.reblogId input) q); simpl; lia.
Qed.

Lemma counted_repliesCount input q p :
  Post.repliesCount (counted input q p)
  = Post.repliesCount p + (if is_target (CreateInput.inReplyToId input) q then 1 else 0).
Proof.
  unfold counted.
  destruct (is_target (CreateInput.inReplyToId input) q),
    (is_target (CreateInput.reblogId input) q); simpl; lia.
Qed.



Lemma create_inr env ctx input w cp w' :
  create env ctx input w = (inr cp, w') →
  ∃ fs, committed env ctx input w w' cp fs.
Proof.
  unfold create. destruct (create_schema input); [done|].
  intros H. apply transaction_inr in H. by eapply create_tx_inr.
Qed.

Lemma committed_lookup env ctx input w w' cp fs q old :
  committed env ctx input w w' cp fs →
  db_post (w_db w) !! q = Some old →
  db_post (w_db w') !! q = Some (counted input q old).
Proof.
  intros Hc Hq. rewrite (c_posts _ _ _ _ _ _ _ Hc).
  rewrite lookup_insert_ne; [by rewrite Hq|].
  intros Heq. rewrite <- Heq, (c_fresh _ _ _ _ _ _ _ Hc) in Hq. done.
Qed.

(** ** The counter statements *)

















(** * The other procedures of the router *)

(** ** The read procedures *)

Lemma annotate_viewer db viewer p :
  annotation_spec db viewer p
    (annotate (reblogIds_of db (Some viewer)) (favoriteIds_of db (Some viewer)) p).
Proof.
  unfold annotation_spec, flags_spec, annotate; simpl.
  split; [done|]. split.
  - split; [apply includes_reblogIds|apply includes_favoriteIds].
  - destruct (hp_reblog p) as [r|]; [|done].
    eexists. split; [done|]. simpl. split; [done|].
    split; [apply includes_reblogIds|apply includes_favoriteIds].
Qed.

Lemma computeInteractions_flags db posts viewer :
  Forall (λ o, flags_spec db viewer (Post.id (wi_row o))
                 (wi_isReblogged o) (wi_isFavorited o))
    (computeInteractions db posts (Some viewer)).
Proof.
  unfold computeInteractions. apply Forall_fmap, Forall_forall. intros p _.
  by destruct (annotate_viewer db viewer p) as (_ & ? & _).
Qed.

Lemma rows_of_included db viewer (rows : list Post.t) :
  wi_row <$> computeInteractions db (include_post db <$> rows) viewer = rows.
Proof.
  rewrite computeInteractions_rows, <- list_fmap_compose. apply list_fmap_id.
Qed.




Lemma filter_all {A} (f : A → bool) (l : list A) :
  (∀ x, x ∈ l → f x = true) → List.filter f l = l.
Proof.
  induction l as [|x l IH]; intros H; simpl; [done|].
  rewrite (H x) by left. f_equal. apply IH. intros y Hy. apply H. by right.
Qed.

Lemma filter_none {A} (f : A → bool) (l : list A) :
  (∀ x, x ∈ l → f x = false) → List.filter f l = [].
Proof.
  induction l as [|x l IH]; intros H; simpl; [done|].
  rewrite (H x) by left. apply IH. intros y Hy. apply H. by right.
Qed.

(** X1: [getById] answers with exactly one post, the row stored under the
    id, annotated for the viewer, and fails with the not-found error when
    no row has the id. *)
Theorem getById_result (db : DB) (id profileId : string) :
  match db_post db !! id with
  | Some p =>
      ∃ o, getById db id profileId = inr [o]
           ∧ annotation_spec db profileId (include_post db p) o
  | None => getById db id profileId = inl (PrismaError "P2025")
  end.
Proof.
  unfold getById. destruct (db_post db !! id) as [p|]; [|done].
  eexists. split; [done|]. apply annotate_viewer.
Qed.

(** X2: [getRepliesById] returns the posts whose [inReplyToId] is the id,
    each with the viewer's flags; it does not look the id up, and an id
    nobody replied to, known or not, gives the empty list and no error. *)
Theorem getRepliesById_rows (db : DB) (id profileId : string) :
  (∀ p, p ∈ wi_row <$> getRepliesById db id profileId
        ↔ (∃ k, db_post db !! k = Some p) ∧ Post.inReplyToId p = Some id)
  ∧ Forall (λ o, flags_spec db profileId (Post.id (wi_row o))
                   (wi_isReblogged o) (wi_isFavorited o))
      (getRepliesById db id profileId)
  ∧ ((∀ k p, db_post db !! k = Some p → Post.inReplyToId p ≠ Some id) →
     getRepliesById db id profileId = []).
Proof.
  assert (Hm : ∀ p, post_matches db (replies_where id) p = true
                    ↔ Post.inReplyToId p = Some id).
  { intros p. unfold post_matches, replies_where; simpl.
    rewrite andb_true_r. destruct (Post.inReplyToId p) as [v|]; simpl.
    - rewrite bool_decide_eq_true. split; congruence.
    - split; congruence. }
  unfold getRepliesById. split; [|split].
  - intros p. rewrite rows_of_included, elem_of_post_findMany. by rewrite Hm.
  - apply computeInteractions_flags.
  - intros Hnone. unfold post_findMany. rewrite filter_none; [done|].
    intros p Hp. apply elem_of_post_rows in Hp as [k Hk].
    apply not_true_is_false. rewrite Hm. by eapply Hnone.
Qed.

Lemma feed_matches_spec follow self p :
  feed_matches (self :: (Follow.followedId <$> follow_findMany follow self)) p = true
  ↔ Post.inReplyToId p = None
    ∧ (Post.profileId p = self
       ∨ ∃ f, f ∈ follow ∧ Follow.followerId f = self
              ∧ Follow.followedId f = Post.profileId p).
Proof.
  unfold feed_matches, follow_findMany.
  rewrite andb_true_iff, cond_holds_IsNull, bool_decide_eq_true, elem_of_cons,
    list_elem_of_fmap.
  split; intros [Hr Hp]; (split; [done|]).
  - destruct Hp as [Hp|(f & Hf & Hin)]; [by left|right].
    apply list_elem_of_In, filter_In in Hin as [Hin Hc].
    apply list_elem_of_In in Hin. apply bool_decide_eq_true in Hc. by exists f.
  - destruct Hp as [Hp|(f & Hin & Hc & Hf)]; [by left|right].
    exists f. split; [done|]. apply list_elem_of_In, filter_In.
    split; [by apply list_elem_of_In|]. by apply bool_decide_eq_true.
Qed.

(** X3: the feed of a profile holds the posts that are not replies and
    whose author is the profile itself or a profile it follows, newest
    first, each with the flags of the profile as viewer. *)
Theorem getFeedByProfileId_rows (db : DB) (follow : list Follow.t) (self : string) :
  (∀ p, p ∈ wi_row <$> getFeedByProfileId db follow self
        ↔ (∃ k, db_post db !! k = Some p)
          ∧ Post.inReplyToId p = None
          ∧ (Post.profileId p = self
             ∨ ∃ f, f ∈ follow ∧ Follow.followerId f = self
                    ∧ Follow.followedId f = Post.profileId p))
  ∧ StronglySorted createdAt_desc (wi_row <$> getFeedByProfileId db follow self)
  ∧ Forall (λ o, flags_spec db self (Post.id (wi_row o))
                   (wi_isReblogged o) (wi_isFavorited o))
      (getFeedByProfileId db follow self).
Proof.
  unfold getFeedByProfileId. rewrite rows_of_included. split; [|split].
  - intros p. rewrite (merge_sort_Permutation createdAt_desc).
    rewrite list_elem_of_In, filter_In, <- list_elem_of_In, elem_of_post_rows.
    by rewrite feed_matches_spec.
  - apply StronglySorted_merge_sort; apply _.
  - apply computeInteractions_flags.
Qed.

(** X4: for a profile that follows nobody the feed is the default listing
    of the profile: the same posts in the same order with the same
    annotation. *)
Theorem getFeedByProfileId_no_follows (db : DB) (follow : list Follow.t)
    (self : string) :
  (∀ f, f ∈ follow → Follow.followerId f ≠ self) →
  getFeedByProfileId db follow self
  = getByProfileId db {| gbp_filter := None; gbp_profileId := self |}.
Proof.
  intros Hnone. unfold getFeedByProfileId, getByProfileId, post_findMany_desc,
    post_findMany.
  assert (Hf : follow_findMany follow self = []).
  { unfold follow_findMany. apply filter_none. intros f Hf.
    apply bool_decide_eq_false. by apply Hnone. }
  rewrite Hf. simpl. do 3 f_equal.
  apply filter_ext. intros p.
  unfold feed_matches, post_matches, getByProfileId_where; simpl.
  rewrite !andb_true_r, andb_comm. f_equal.
  apply bool_decide_ext. rewrite list_elem_of_singleton. split; congruence.
Qed.

Lemma getFeedByProfileId_no_follows_witness :
  getFeedByProfileId sample_db sample_follow "bob"
  = getByProfileId sample_db {| gbp_filter := None; gbp_profileId := "bob" |}.
Proof.
  apply (getFeedByProfileId_no_follows sample_db sample_follow "bob").
  intros f Hf. apply list_elem_of_singleton in Hf as ->. simpl. discriminate.
Defined.

Lemma search_matches_spec contains usernames input p :
  search_matches contains usernames (search_filter input) p = true
  ↔ (si_content input ≠ EmptyString →
       ∃ text, Post.content p = Some text ∧ contains text (si_content input) = true)
    ∧ (si_username input ≠ EmptyString →
       usernames !! Post.profileId p = Some (si_username input)).
Proof.
  unfold search_matches, search_filter.
  destruct (si_content input) as [|a c]; destruct (si_username input) as [|b u];
    simpl String.length.
  - rewrite !(bool_decide_eq_false_2 (0 < 0)%nat) by lia. simpl. tauto.
  - rewrite (bool_decide_eq_false_2 (0 < 0)%nat) by lia.
    rewrite bool_decide_eq_true_2 by lia. simpl.
    rewrite bool_decide_eq_true. split; [by intros ?|]. intros [_ H]. by apply H.
  - rewrite (bool_decide_eq_false_2 (0 < 0)%nat) by lia.
    rewrite bool_decide_eq_true_2 by lia. simpl.
    rewrite andb_true_r. destruct (Post.content p) as [text|].
    + split.
      * intros H. split; [|tauto]. intros _. by exists text.
      * intros [H _]. destruct H as (t & [= <-] & Ht); done.
    + split; [done|]. intros [H _]. by destruct H as (t & ? & _).
  - rewrite !bool_decide_eq_true_2 by lia. simpl.
    rewrite andb_true_iff, bool_decide_eq_true. destruct (Post.content p) as [text|].
    + split.
      * intros [H1 H2]. split; [|done]. intros _. by exists text.
      * intros [H1 H2]. split; [|by apply H2].
        destruct H1 as (t & [= <-] & Ht); done.
    + split; [by intros [? _]|]. intros [H _]. by destruct H as (t & ? & _).
Qed.

(** X5: [search] returns the posts that pass both filters: when the
    content argument is not empty the post has a content that contains it,
    and when the username argument is not empty the author of the post has
    that username; an empty argument puts no condition.  This holds
    whatever the substring test of the database is. *)
Theorem search_rows (contains : string → string → bool)
    (usernames : gmap string string) (db : DB) (input : SearchInput) :
  ∀ p, p ∈ wi_row <$> search contains usernames db input
       ↔ (∃ k, db_post db !! k = Some p)
         ∧ (si_content input ≠ EmptyString →
              ∃ text, Post.content p = Some text
                      ∧ contains text (si_content input) = true)
         ∧ (si_username input ≠ EmptyString →
              usernames !! Post.profileId p = Some (si_username input)).
Proof.
  intros p. unfold search. rewrite rows_of_included.
  rewrite list_elem_of_In, filter_In, <- list_elem_of_In, elem_of_post_rows.
  by rewrite search_matches_spec.
Qed.

(** X6: a search with both arguments empty is no search: it returns every
    post of the table, replies included, in the order of the table. *)
Theorem search_empty (contains : string → string → bool)
    (usernames : gmap string string) (db : DB) (viewer : string) :
  wi_row <$> search contains usernames db
               {| si_profileId := viewer; si_content := EmptyString;
                  si_username := EmptyString |}
  = post_rows db.
Proof.
  unfold search. rewrite rows_of_included. by apply filter_all.
Qed.

(** ** The object store during [create] *)

Lemma relocate_upload_move env upload w w' name object fileType :
  relocate_upload env upload w = (inr (name, object, fileType), w') →
  name ≠ Upload.key upload
  ∧ w_s3 w !! Upload.key upload = Some object
  ∧ w_s3 w' = delete (Upload.key upload) (<[name := object]> (w_s3 w))
  ∧ w_db w' = w_db w.
Proof.
  unfold relocate_upload, mbind, M_bind, bind, uuidv4, CopyObject, DeleteObject,
    GetObject, run_probe, ret; simpl.
  destruct (w_s3 w !! Upload.key upload) as [o|] eqn:Ho; simpl; [|done].
  destruct (delete _ _ !! _) as [o'|] eqn:Ho'; simpl; [|done].
  destruct (probe env (Body o')) as [e|ft]; [done|].
  intros [= <- <- <- <-]. simpl.
  apply lookup_delete_Some in Ho' as [Hne Ho'].
  rewrite lookup_insert_eq in Ho'. by injection Ho' as <-.
Qed.

(** X7: the relocation of an upload is a move.  When it succeeds the new
    name differs from the staging key, the object that was staged is the
    one fetched and now sits under the new name, the staging key is empty,
    every other key holds what it held, and the database is not touched. *)
Theorem relocate_upload_moves (env : Env) (upload : Upload.t) (w w' : World)
    (name : string) (object : S3Object) (fileType : option ProbeResult) :
  relocate_upload env upload w = (inr (name, object, fileType), w') →
  name ≠ Upload.key upload
  ∧ w_s3 w !! Upload.key upload = Some object
  ∧ w_s3 w' !! name = Some object
  ∧ w_s3 w' !! Upload.key upload = None
  ∧ (∀ k, k ≠ name → k ≠ Upload.key upload → w_s3 w' !! k = w_s3 w !! k)
  ∧ w_db w' = w_db w.
Proof.
  intros H. apply relocate_upload_move in H as (Hne & Hobj & -> & Hdb).
  split; [done|]. split; [done|]. split.
  { by rewrite lookup_delete_ne, lookup_insert_eq. }
  split; [apply lookup_delete_eq|]. split; [|done].
  intros k Hk1 Hk2. by rewrite lookup_delete_ne, lookup_insert_ne.
Qed.

Lemma relocate_upload_moves_witness :
  "u0.png" ≠ Upload.key (sample_upload "k1" "png")
  ∧ w_s3 sample_world !! Upload.key (sample_upload "k1" "png")
    = Some {| Body := [Byte.x50]; ContentLength := Some 1%N |}
  ∧ w_s3 (snd (relocate_upload sample_env (sample_upload "k1" "png") sample_world))
      !! "u0.png" = Some {| Body := [Byte.x50]; ContentLength := Some 1%N |}
  ∧ w_s3 (snd (relocate_upload sample_env (sample_upload "k1" "png") sample_world))
      !! Upload.key (sample_upload "k1" "png") = None
  ∧ (∀ k, k ≠ "u0.png" → k ≠ Upload.key (sample_upload "k1" "png") →
       w_s3 (snd (relocate_upload sample_env (sample_upload "k1" "png") sample_world))
         !! k = w_s3 sample_world !! k)
  ∧ w_db (snd (relocate_upload sample_env (sample_upload "k1" "png") sample_world))
    = w_db sample_world.
Proof.
  apply (relocate_upload_moves sample_env (sample_upload "k1" "png") sample_world
           (snd (relocate_upload sample_env (sample_upload "k1" "png") sample_world))
           "u0.png" {| Body := [Byte.x50]; ContentLength := Some 1%N |}
           (Some {| pr_mime := "image/png"; pr_type := "png";
                    pr_width := 640; pr_height := 480 |})).
  vm_compute; reflexivity.
Defined.

(** X8: an upload whose staging key holds no object stops the call at the
    copy: [create] fails with the error of the object store, not with the
    invalid file error, and the database is rolled back. *)
Theorem create_missing_staging_object (env : Env) (ctx : Ctx)
    (input : CreateInput.t) (w : World) (pre rest : list Upload.t)
    (upload : Upload.t) (post : Post.t) (w0 w1 : World) :
  create_schema input = None →
  CreateInput.files input = Some (pre ++ upload :: rest)%list →
  create_post env ctx input w = (inr post, w0) →
  promote_files env (Post.id post) pre w0 = (inr (), w1) →
  w_s3 w1 !! Upload.key upload = None →
  ∃ w', create env ctx input w = (inl (S3Error "NoSuchKey"), w')
        ∧ w_db w' = w_db w
        ∧ w_s3 w' = w_s3 w1.
Proof.
  intros Hs Hfiles Hpost Hpre Hkey.
  assert (Hrel : ∃ w2, relocate_upload env upload w1 = (inl (S3Error "NoSuchKey"), w2)
                       ∧ w_s3 w2 = w_s3 w1).
  { unfold relocate_upload, mbind, M_bind, bind, uuidv4, CopyObject; simpl.
    rewrite Hkey. by eexists. }
  destruct Hrel as (w2 & Hrel & Hs3).
  exists (set_db (w_db w) w2). split; [|by split].
  eapply create_fails_in_loop; [done..|].
  unfold promote_upload. by apply bind_inl_l.
Qed.

Lemma create_missing_staging_object_witness :
  ∃ w', create sample_env sample_ctx sample_unstaged sample_world
        = (inl (S3Error "NoSuchKey"), w')
        ∧ w_db w' = w_db sample_world
        ∧ w_s3 w'
          = w_s3 (snd (create_post sample_env sample_ctx sample_unstaged sample_world)).
Proof.
  apply (create_missing_staging_object sample_env sample_ctx sample_unstaged
           sample_world [] [] (sample_upload "k9" "png")
           (new_post sample_env sample_unstaged sample_world)
           (snd (create_post sample_env sample_ctx sample_unstaged sample_world))
           (snd (create_post sample_env sample_ctx sample_unstaged sample_world))).
  - reflexivity.
  - reflexivity.
  - vm_compute; reflexivity.
  - reflexivity.
  - vm_compute; reflexivity.
Defined.

(** X9: the object store is not part of the transaction.  When [create] is
    refused for an invalid file, the database is rolled back, but the move
    of that upload stays: its staging key is empty and the object sits
    under the new name, which no File row was written for. *)
Theorem create_invalid_file_orphan (env : Env) (ctx : Ctx) (input : CreateInput.t)
    (w : World) (pre rest : list Upload.t) (upload : Upload.t)
    (post : Post.t) (w0 w1 w2 : World)
    (name : string) (object : S3Object) (fileType : option ProbeResult) :
  create_schema input = None →
  CreateInput.files input = Some (pre ++ upload :: rest)%list →
  create_post env ctx input w = (inr post, w0) →
  promote_files env (Post.id post) pre w0 = (inr (), w1) →
  relocate_upload env upload w1 = (inr (name, object, fileType), w2) →
  ContentLength object = None ∨ ContentLength object = Some 0%N
  ∨ fileType = None
  ∨ (∃ ft, fileType = Some ft ∧ Upload.ext upload ≠ pr_type ft) →
  ∃ w', create env ctx input w = (inl invalid_file, w')
        ∧ w_db w' = w_db w
        ∧ w_s3 w' !! Upload.key upload = None
        ∧ w_s3 w' !! name = Some object
        ∧ w_s3 w' = w_s3 w2.
Proof.
  intros Hs Hfiles Hpost Hpre Hrel Hbad.
  exists (set_db (w_db w) w2).
  pose proof (relocate_upload_move _ _ _ _ _ _ _ Hrel) as (Hne & _ & Hs3 & _).
  split; [|split; [done|]].
  - eapply create_fails_in_loop; [done..|].
    unfold promote_upload. rewrite (bind_inr_l _ _ _ _ _ Hrel).
    by apply persist_upload_inl.
  - simpl. rewrite Hs3. split; [apply lookup_delete_eq|]. split; [|done].
    by rewrite lookup_delete_ne, lookup_insert_eq.
Qed.

Lemma create_invalid_file_orphan_witness :
  ∃ w', create sample_env sample_ctx sample_mismatch sample_world
        = (inl invalid_file, w')
        ∧ w_db w' = w_db sample_world
        ∧ w_s3 w' !! Upload.key (sample_upload "k2" "png") = None
        ∧ w_s3 w' !! "u1.png" = Some sample_jpeg
        ∧ w_s3 w'
          = w_s3 (snd (relocate_upload sample_env (sample_upload "k2" "png")
                   (snd (promote_files sample_env "c0" [sample_upload "k1" "png"]
                           (snd (create_post sample_env sample_ctx sample_mismatch
                                   sample_world)))))).
Proof.
  apply (create_invalid_file_orphan sample_env sample_ctx sample_mismatch sample_world
           [sample_upload "k1" "png"] [] (sample_upload "k2" "png")
           (new_post sample_env sample_mismatch sample_world)
           (snd (create_post sample_env sample_ctx sample_mismatch sample_world))
           (snd (promote_files sample_env "c0" [sample_upload "k1" "png"]
                   (snd (create_post sample_env sample_ctx sample_mismatch sample_world))))
           (snd (relocate_upload sample_env (sample_upload "k2" "png")
                   (snd (promote_files sample_env "c0" [sample_upload "k1" "png"]
                           (snd (create_post sample_env sample_ctx sample_mismatch
                                   sample_world))))))
           "u1.png" sample_jpeg (Some sample_jpeg_probe)).
  - reflexivity.
  - reflexivity.
  - vm_compute; reflexivity.
  - vm_compute; reflexivity.
  - vm_compute; reflexivity.
  - right; right; right. exists sample_jpeg_probe. split; [reflexivity|].
    vm_compute. discriminate.
Defined.

Lemma set_db_same w : set_db (w_db w) w = w.
Proof. by destruct w. Qed.

(** X10: the permission check comes before everything else.  A caller whose
    account does not own the profile gets the permission error and the
    world is the one before the call: no id was drawn, no staged object
    was moved and nothing was written. *)
Theorem create_forbidden_untouched (env : Env) (ctx : Ctx) (input : CreateInput.t)
    (w : World) :
  create_schema input = None →
  has_permission ctx input (w_db w) = false →
  create env ctx input w = (inl forbidden, w).
Proof.
  intros Hs Hp. unfold create. rewrite Hs. unfold transaction, create_tx.
  assert (Hpost : create_post env ctx input w = (inl forbidden, w)).
  { rewrite create_post_unfold. by rewrite Hp. }
  rewrite (bind_inl_l _ _ _ _ _ Hpost). by rewrite set_db_same.
Qed.

Lemma create_forbidden_untouched_witness :
  create sample_env {| session_user_id := "user2" |} sample_reblog sample_world
  = (inl forbidden, sample_world).
Proof.
  apply (create_forbidden_untouched sample_env {| session_user_id := "user2" |}
           sample_reblog sample_world); reflexivity.
Defined.

Lemma post_create_frame env i r p c w res w' :
  post_create env i r p c w = (res, w') →
  w_s3 w' = w_s3 w ∧ w_uuid w' = w_uuid w.
Proof.
  unfold post_create, mbind, M_bind, bind, cuid, post_insert; simpl.
  destruct (db_post (w_db w) !! cuid_at env (w_cuid w)); by intros [= _ <-].
Qed.

Lemma update_if_truthy_frame o f w res w' :
  update_if_truthy o f w = (res, w') →
  w_s3 w' = w_s3 w ∧ w_uuid w' = w_uuid w.
Proof.
  unfold update_if_truthy, post_update, ret.
  destruct o as [v|]; [|by intros [= _ <-]].
  destruct (bool_decide (v = EmptyString)); [by intros [= _ <-]|].
  destruct (db_post (w_db w) !! v); by intros [= _ <-].
Qed.

Lemma create_post_frame env ctx input w res w' :
  create_post env ctx input w = (res, w') →
  w_s3 w' = w_s3 w ∧ w_uuid w' = w_uuid w.
Proof.
  rewrite create_post_unfold.
  destruct (has_permission ctx input (w_db w)); [|by intros [= _ <-]].
  unfold mbind, M_bind, bind.
  destruct (post_create _ _ _ _ _ w) as [[e|post] w1] eqn:H1;
    apply post_create_frame in H1 as [Hs1 Hu1]; [intros [= _ <-]; by split|].
  destruct (update_if_truthy _ repliesCount_increment w1) as [[e|[]] w2] eqn:H2;
    apply update_if_truthy_frame in H2 as [Hs2 Hu2];
    [intros [= _ <-]; split; congruence|].
  destruct (update_if_truthy _ reblogsCount_increment w2) as [[e|[]] w3] eqn:H3;
    apply update_if_truthy_frame in H3 as [Hs3 Hu3];
    intros [= _ <-]; split; congruence.
Qed.

(** X11: a call without uploads, [files] absent or empty, never talks to
    the object store: whether it commits or fails, every object is where
    it was and no key name was generated. *)
Theorem create_without_files_keeps_store (env : Env) (ctx : Ctx)
    (input : CreateInput.t) (w : World) :
  CreateInput.files input = None ∨ CreateInput.files input = Some [] →
  w_s3 (snd (create env ctx input w)) = w_s3 w
  ∧ w_uuid (snd (create env ctx input w)) = w_uuid w.
Proof.
  intros Hf. unfold create. destruct (create_schema input); [done|].
  unfold transaction, create_tx, mbind, M_bind, bind.
  destruct (create_post env ctx input w) as [[e|post] w0] eqn:Hpost;
    apply create_post_frame in Hpost as [Hs0 Hu0]; [done|].
  assert (Hloop : match CreateInput.files input with
                  | Some files => promote_files env (Post.id post) files
                  | None => ret ()
                  end w0 = (inr (), w0)).
  { by destruct Hf as [-> | ->]. }
  rewrite Hloop. unfold post_findUniqueOrThrow.
  by destruct (db_post (w_db w0) !! Post.id post).
Qed.

Lemma create_without_files_keeps_store_witness :
  w_s3 (snd (create sample_env sample_ctx sample_dangling sample_world))
  = w_s3 sample_world
  ∧ w_uuid (snd (create sample_env sample_ctx sample_dangling sample_world))
    = w_uuid sample_world.
Proof.
  apply (create_without_files_keeps_store sample_env sample_ctx sample_dangling
           sample_world).
  left; reflexivity.
Defined.

(** ** What [create] leaves behind *)

Lemma counted_id input q p : Post.id (counted input q p) = Post.id p.
Proof.
  unfold counted.
  by destruct (is_target (CreateInput.inReplyToId input) q),
    (is_target (CreateInput.reblogId input) q).
Qed.

Lemma counted_profileId input q p :
  Post.profileId (counted input q p) = Post.profileId p.
Proof.
  unfold counted.
  by destruct (is_target (CreateInput.inReplyToId input) q),
    (is_target (CreateInput.reblogId input) q).
Qed.

Lemma counted_reblogId input q p :
  Post.reblogId (counted input q p) = Post.reblogId p.
Proof.
  unfold counted.
  by destruct (is_target (CreateInput.inReplyToId input) q),
    (is_target (CreateInput.reblogId input) q).
Qed.

Lemma counted_inReplyToId input q p :
  Post.inReplyToId (counted input q p) = Post.inReplyToId p.
Proof.
  unfold counted.
  by destruct (is_target (CreateInput.inReplyToId input) q),
    (is_target (CreateInput.reblogId input) q).
Qed.

Lemma create_inl_db env ctx input w e w' :
  create env ctx input w = (inl e, w') → w_db w' = w_db w.
Proof.
  unfold create. destruct (create_schema input).
  - by intros [= _ <-].
  - apply transaction_inl.
Qed.

Lemma committed_new_row env ctx input w w' cp fs :
  committed env ctx input w w' cp fs →
  db_post (w_db w') !! Post.id (new_post env input w)
  = Some (counted input (Post.id (new_post env input w)) (new_post env input w))
  ∧ cp_post cp
    = include_post (w_db w')
        (counted input (Post.id (new_post env input w)) (new_post env input w)).
Proof.
  intros Hc. destruct (c_result _ _ _ _ _ _ _ Hc) as (_ & _ & row & Hrow & Hcp).
  pose proof Hrow as Hrow'.
  rewrite (c_posts _ _ _ _ _ _ _ Hc), lookup_insert_eq in Hrow'.
  injection Hrow' as <-. by split.
Qed.

Lemma committed_file_lookup env ctx input w w' cp fs f :
  committed env ctx input w w' cp fs →
  f ∈ fs → db_file (w_db w') !! File.id f = Some f.
Proof.
  intros Hc Hf. rewrite (c_files _ _ _ _ _ _ _ Hc).
  apply lookup_union_Some_l, elem_of_list_to_map_1.
  - rewrite file_entries_keys. apply (c_files_nodup _ _ _ _ _ _ _ Hc).
  - unfold file_entries. apply list_elem_of_fmap. by exists f.
Qed.

(** X12: [create] keeps the database coherent: after the call, committed
    or not, every Post and File row is still stored under its own id and
    every Attachment row, the new ones included, points to a post and a
    file that exist. *)
Theorem create_keeps_coherent (env : Env) (ctx : Ctx) (input : CreateInput.t)
    (w : World) :
  db_coherent (w_db w) →
  db_coherent (w_db (snd (create env ctx input w))).
Proof.
  intros (Hposts & Hfiles & Hatts).
  destruct (create env ctx input w) as [[e|cp] w'] eqn:Hrun; simpl.
  { apply create_inl_db in Hrun. rewrite Hrun. by repeat split. }
  apply create_inr in Hrun as [fs Hc].
  split; [|split].
  - intros k p. rewrite (c_posts _ _ _ _ _ _ _ Hc).
    destruct (decide (Post.id (new_post env input w) = k)) as [<-|Hk].
    + rewrite lookup_insert_eq. simpl. intros [= <-]. by rewrite counted_id.
    + rewrite lookup_insert_ne by done.
      destruct (db_post (w_db w) !! k) as [p0|] eqn:Hp0; simpl; [|done].
      intros [= <-]. rewrite counted_id. by apply Hposts.
  - intros k f. rewrite (c_files _ _ _ _ _ _ _ Hc).
    intros [Hnew|[_ Hold]]%lookup_union_Some_raw; [|by apply Hfiles].
    apply elem_of_list_to_map_2 in Hnew. unfold file_entries in Hnew.
    apply list_elem_of_fmap in Hnew as (f' & [= -> ->] & _). done.
  - rewrite (c_attachments _ _ _ _ _ _ _ Hc). apply Forall_app. split.
    + eapply Forall_impl; [exact Hatts|]. intros a [[p Hp] [f Hf]]. split.
      * rewrite (committed_lookup _ _ _ _ _ _ _ _ _ Hc Hp). by eexists.
      * rewrite (c_files _ _ _ _ _ _ _ Hc).
        destruct ((list_to_map (file_entries fs) : gmap string File.t)
                    !! Attachment.fileId a) as [f'|] eqn:Hl.
        -- exists f'. by apply lookup_union_Some_l.
        -- exists f. by rewrite lookup_union_r.
    + unfold attachments_for. apply Forall_fmap, Forall_forall. intros f Hf. simpl.
      split.
      * destruct (committed_new_row _ _ _ _ _ _ _ Hc) as [Hrow _]. by eexists.
      * exists f. by eapply committed_file_lookup.
Qed.

Lemma sample_db_coherent : db_coherent sample_db.
Proof.
  split; [|split].
  - intros k p Hp. unfold sample_db in Hp. simpl in Hp.
    apply lookup_insert_Some in Hp as [[<- <-]|[_ Hp]]; [done|].
    apply lookup_singleton_Some in Hp as [<- <-]. done.
  - intros k f Hf. done.
  - constructor.
Qed.

Lemma create_keeps_coherent_witness :
  db_coherent (w_db (snd (create sample_env sample_ctx sample_reblog sample_world))).
Proof.
  apply (create_keeps_coherent sample_env sample_ctx sample_reblog sample_world).
  exact sample_db_coherent.
Defined.

Lemma attachments_of_committed env ctx input w w' cp fs :
  committed env ctx input w w' cp fs →
  attachments_of (w_db w') (Post.id (new_post env input w))
  = (attachments_of (w_db w) (Post.id (new_post env input w))
     ++ attachments_for (Post.id (new_post env input w)) fs)%list.
Proof.
  intros Hc. unfold attachments_of.
  rewrite (c_attachments _ _ _ _ _ _ _ Hc), List.filter_app. f_equal.
  apply filter_all. intros a Ha. unfold attachments_for in Ha.
  apply list_elem_of_fmap in Ha as (f & -> & _). simpl.
  by apply bool_decide_eq_true.
Qed.

(** X13: the post a successful [create] returns is the new row as stored,
    with the fields of the input, the profile of the caller, and, when no
    Attachment row was waiting for the fresh id, exactly one attachment
    per upload, in the order of the uploads, each with its File row. *)
Theorem create_returns_post (env : Env) (ctx : Ctx) (input : CreateInput.t)
    (w w' : World) (cp : CreatedPost) :
  create env ctx input w = (inr cp, w') →
  Forall (λ a, Attachment.postId a ≠ cuid_at env (w_cuid w))
    (db_attachment (w_db w)) →
  ∃ fs profile,
    Post.id (bp_row (hp_base (cp_post cp))) = cuid_at env (w_cuid w)
    ∧ Post.profileId (bp_row (hp_base (cp_post cp))) = CreateInput.profileId input
    ∧ Post.content (bp_row (hp_base (cp_post cp))) = CreateInput.content input
    ∧ Post.inReplyToId (bp_row (hp_base (cp_post cp))) = CreateInput.inReplyToId input
    ∧ Post.reblogId (bp_row (hp_base (cp_post cp))) = CreateInput.reblogId input
    ∧ bp_profile (hp_base (cp_post cp)) = Some profile
    ∧ Profile.userId profile = session_user_id ctx
    ∧ Forall2 (λ u f, File.extension f = Upload.ext u) (uploads_of input) fs
    ∧ bp_attachments (hp_base (cp_post cp)) = attached (cuid_at env (w_cuid w)) <$> fs.
Proof.
  intros Hrun Hfree. apply create_inr in Hrun as [fs Hc].
  destruct (committed_new_row _ _ _ _ _ _ _ Hc) as [_ ->]. simpl.
  assert (Hperm := c_permission _ _ _ _ _ _ _ Hc). unfold has_permission in Hperm.
  destruct (db_profile (w_db w) !! CreateInput.profileId input) as [profile|] eqn:Hpr;
    [|done].
  apply bool_decide_eq_true in Hperm.
  exists fs, profile.
  rewrite counted_id, counted_profileId, counted_content, counted_inReplyToId,
    counted_reblogId. simpl.
  repeat (split; [done|]). split.
  { by rewrite (c_profile _ _ _ _ _ _ _ Hc). }
  split; [done|]. split; [apply (c_uploads _ _ _ _ _ _ _ Hc)|].
  pose proof (attachments_of_committed _ _ _ _ _ _ _ Hc) as Hatt. simpl in Hatt.
  rewrite Hatt.
  assert (Hold : attachments_of (w_db w) (cuid_at env (w_cuid w)) = []).
  { unfold attachments_of. apply filter_none. intros a Ha.
    apply bool_decide_eq_false. rewrite Forall_forall in Hfree. by apply Hfree. }
  rewrite Hold. simpl. unfold attachments_for. rewrite <- list_fmap_compose.
  apply list_fmap_ext. intros i f Hf. simpl. unfold attached. f_equal.
  eapply committed_file_lookup; [exact Hc|]. by eapply list_elem_of_lookup_2.
Qed.

Lemma create_returns_post_witness :
  ∃ fs profile,
    Post.id (bp_row (hp_base (cp_post (sample_created)))) = "c0"
    ∧ Post.profileId (bp_row (hp_base (cp_post sample_created))) = "alice"
    ∧ Post.content (bp_row (hp_base (cp_post sample_created))) = None
    ∧ Post.inReplyToId (bp_row (hp_base (cp_post sample_created))) = None
    ∧ Post.reblogId (bp_row (hp_base (cp_post sample_created))) = Some "P1"
    ∧ bp_profile (hp_base (cp_post sample_created)) = Some profile
    ∧ Profile.userId profile = "user1"
    ∧ Forall2 (λ u f, File.extension f = Upload.ext u) (uploads_of sample_reblog) fs
    ∧ bp_attachments (hp_base (cp_post sample_created)) = attached "c0" <$> fs.
Proof.
  apply (create_returns_post sample_env sample_ctx sample_reblog sample_world
           (snd (create sample_env sample_ctx sample_reblog sample_world))
           sample_created).
  - vm_compute; reflexivity.
  - constructor.
Defined.

(** ** [create] followed by a read *)

(** X14: a reblog without content shows up in the annotation.  After a
    successful [create] with [reblogId] P1 and no content, every post with
    id P1 that is annotated for the author of the reblog is flagged as
    reblogged. *)
Theorem create_reblog_is_flagged (env : Env) (ctx : Ctx) (input : CreateInput.t)
    (w w' : World) (cp : CreatedPost) (P1 : string) (posts : list HydratedPost) :
  create env ctx input w = (inr cp, w') →
  CreateInput.reblogId input = Some P1 →
  CreateInput.content input = None →
  Forall (λ o, Post.id (wi_row o) = P1 → wi_isReblogged o = true)
    (computeInteractions (w_db w') posts (Some (CreateInput.profileId input))).
Proof.
  intros Hrun Hr Hcontent. apply create_inr in Hrun as [fs Hc].
  destruct (committed_new_row _ _ _ _ _ _ _ Hc) as [Hrow _].
  assert (Hset : in_reblog_set (w_db w') (CreateInput.profileId input) P1).
  { eexists _, _. split; [exact Hrow|].
    by rewrite counted_profileId, counted_content, counted_reblogId. }
  eapply Forall_impl; [apply computeInteractions_flags|].
  intros o [Hflag _] <-. by apply Hflag.
Qed.

Lemma create_reblog_is_flagged_witness :
  Forall (λ o, Post.id (wi_row o) = "P1" → wi_isReblogged o = true)
    (computeInteractions
       (w_db (snd (create sample_env sample_ctx sample_reblog sample_world)))
       [include_post sample_db sample_P1] (Some (CreateInput.profileId sample_reblog))).
Proof.
  apply (create_reblog_is_flagged sample_env sample_ctx sample_reblog sample_world
           (snd (create sample_env sample_ctx sample_reblog sample_world))
           sample_created "P1" [include_post sample_db sample_P1]).
  - vm_compute; reflexivity.
  - reflexivity.
  - reflexivity.
Defined.

Lemma bool_eq_iff (b1 b2 : bool) (P : Prop) :
  (b1 = true ↔ P) → (b2 = true ↔ P) → b1 = b2.
Proof. destruct b1, b2; intuition congruence. Qed.

Lemma create_reblog_set_content env ctx input w w' cp fs viewer id :
  committed env ctx input w w' cp fs →
  CreateInput.content input ≠ None →
  in_reblog_set (w_db w') viewer id ↔ in_reblog_set (w_db w) viewer id.
Proof.
  intros Hc Hcontent. unfold in_reblog_set. split.
  - intros (k & r & Hk & Hp & Hnull & Hr).
    rewrite (c_posts _ _ _ _ _ _ _ Hc) in Hk.
    destruct (decide (Post.id (new_post env input w) = k)) as [<-|Hne].
    + rewrite lookup_insert_eq in Hk. injection Hk as <-.
      rewrite counted_content in Hnull. done.
    + rewrite lookup_insert_ne in Hk by done.
      destruct (db_post (w_db w) !! k) as [r0|] eqn:Hr0; [|done].
      injection Hk as <-. exists k, r0.
      by rewrite counted_profileId in Hp; rewrite counted_content in Hnull;
        rewrite counted_reblogId in Hr.
  - intros (k & r & Hk & Hp & Hnull & Hr).
    exists k, (counted input k r).
    rewrite (committed_lookup _ _ _ _ _ _ _ _ _ Hc Hk).
    by rewrite counted_profileId, counted_content, counted_reblogId.
Qed.

(** X15: a post with content, a reply or a quote, changes nobody's flags:
    whatever the outcome of a [create] whose input has a content, the
    annotation of any posts for any viewer is what it was before the
    call. *)
Theorem create_with_content_keeps_flags (env : Env) (ctx : Ctx)
    (input : CreateInput.t) (w : World) (posts : list HydratedPost)
    (viewer : string) :
  CreateInput.content input ≠ None →
  computeInteractions (w_db (snd (create env ctx input w))) posts (Some viewer)
  = computeInteractions (w_db w) posts (Some viewer).
Proof.
  intros Hcontent.
  destruct (create env ctx input w) as [[e|cp] w'] eqn:Hrun; simpl.
  { by rewrite (create_inl_db _ _ _ _ _ _ Hrun). }
  apply create_inr in Hrun as [fs Hc].
  assert (Hfav : favoriteIds_of (w_db w') (Some viewer)
                 = favoriteIds_of (w_db w) (Some viewer)).
  { unfold favoriteIds_of, favorite_findMany.
    by rewrite (c_favorite _ _ _ _ _ _ _ Hc). }
  assert (Hreb : ∀ id, includes (reblogIds_of (w_db w') (Some viewer)) id
                       = includes (reblogIds_of (w_db w) (Some viewer)) id).
  { intros id. eapply bool_eq_iff; [|apply includes_reblogIds].
    rewrite includes_reblogIds. by eapply create_reblog_set_content. }
  unfold computeInteractions. rewrite Hfav.
  apply list_fmap_ext. intros i p _. unfold annotate.
  destruct (hp_reblog p); by rewrite !Hreb.
Qed.

Lemma create_with_content_keeps_flags_witness :
  computeInteractions
    (w_db (snd (create sample_env sample_ctx sample_unstaged sample_world)))
    [include_post sample_db sample_P1] (Some "carol")
  = computeInteractions (w_db sample_world) [include_post sample_db sample_P1]
      (Some "carol").
Proof.
  apply (create_with_content_keeps_flags sample_env sample_ctx sample_unstaged
           sample_world [include_post sample_db sample_P1] "carol").
  discriminate.
Defined.

Lemma elem_of_getByProfileId db input p :
  p ∈ wi_row <$> getByProfileId db input
  ↔ (∃ k, db_post db !! k = Some p)
    ∧ Post.profileId p = gbp_profileId input
    ∧ profile_filter_spec db (gbp_filter input) p.
Proof.
  rewrite getByProfileId_rows, elem_of_post_findMany_desc.
  by rewrite getByProfileId_matches.
Qed.

(** X16: a created post is on its author's profile.  The post returned by a
    successful [create] is in the listing with replies of the profile it
    was written for; it is in the default listing exactly when the input
    had no [inReplyToId]; and it is in the media listing when the input had
    an upload. *)
Theorem create_post_is_listed (env : Env) (ctx : Ctx) (input : CreateInput.t)
    (w w' : World) (cp : CreatedPost) :
  create env ctx input w = (inr cp, w') →
  bp_row (hp_base (cp_post cp))
    ∈ wi_row <$> getByProfileId (w_db w')
                   {| gbp_filter := Some WithReplies;
                      gbp_profileId := CreateInput.profileId input |}
  ∧ (bp_row (hp_base (cp_post cp))
       ∈ wi_row <$> getByProfileId (w_db w')
                      {| gbp_filter := None;
                         gbp_profileId := CreateInput.profileId input |}
     ↔ CreateInput.inReplyToId input = None)
  ∧ (uploads_of input ≠ [] →
     bp_row (hp_base (cp_post cp))
       ∈ wi_row <$> getByProfileId (w_db w')
                      {| gbp_filter := Some Media;
                         gbp_profileId := CreateInput.profileId input |}).
Proof.
  intros Hrun. apply create_inr in Hrun as [fs Hc].
  destruct (committed_new_row _ _ _ _ _ _ _ Hc) as [Hrow ->]. simpl.
  split; [|split].
  - apply elem_of_getByProfileId. simpl.
    split; [by eexists|]. by rewrite counted_profileId.
  - rewrite elem_of_getByProfileId. simpl.
    rewrite counted_profileId, counted_inReplyToId. simpl. split.
    + by intros (_ & _ & ?).
    + intros ?. split; [by eexists|]. by split.
  - intros Hup. apply elem_of_getByProfileId. simpl.
    split; [by eexists|]. unfold profile_filter_spec.
    rewrite counted_profileId, counted_id. simpl. split; [done|].
    pose proof (attachments_of_committed _ _ _ _ _ _ _ Hc) as Hatt. simpl in Hatt.
    rewrite Hatt. intros Hnil. apply app_eq_nil in Hnil as [_ Hnil].
    apply fmap_nil_inv in Hnil. subst fs.
    pose proof (c_uploads _ _ _ _ _ _ _ Hc) as Hf2.
    apply Forall2_nil_inv_r in Hf2. done.
Qed.

Lemma create_post_is_listed_witness :
  bp_row (hp_base (cp_post sample_created))
    ∈ wi_row <$> getByProfileId
                   (w_db (snd (create sample_env sample_ctx sample_reblog sample_world)))
                   {| gbp_filter := Some WithReplies;
                      gbp_profileId := CreateInput.profileId sample_reblog |}
  ∧ (bp_row (hp_base (cp_post sample_created))
       ∈ wi_row <$> getByProfileId
                      (w_db (snd (create sample_env sample_ctx sample_reblog sample_world)))
                      {| gbp_filter := None;
                         gbp_profileId := CreateInput.profileId sample_reblog |}
     ↔ CreateInput.inReplyToId sample_reblog = None)
  ∧ (uploads_of sample_reblog ≠ [] →
     bp_row (hp_base (cp_post sample_created))
       ∈ wi_row <$> getByProfileId
                      (w_db (snd (create sample_env sample_ctx sample_reblog sample_world)))
                      {| gbp_filter := Some Media;
                         gbp_profileId := CreateInput.profileId sample_reblog |}).
Proof.
  apply (create_post_is_listed sample_env sample_ctx sample_reblog sample_world
           (snd (create sample_env sample_ctx sample_reblog sample_world))
           sample_created).
  vm_compute; reflexivity.
Defined.

(** X17: a created post can be read back.  [getById] with the id of the
    post returned by a successful [create] answers with that post alone,
    and when the input had an [inReplyToId] the post is among the replies
    [getRepliesById] lists for it. *)
Theorem create_post_is_readable (env : Env) (ctx : Ctx) (input : CreateInput.t)
    (w w' : World) (cp : CreatedPost) (viewer : string) :
  create env ctx input w = (inr cp, w') →
  (∃ o, getById (w_db w') (hp_id (cp_post cp)) viewer = inr [o]
        ∧ wi_post o = hp_base (cp_post cp))
  ∧ (∀ parent, CreateInput.inReplyToId input = Some parent →
       bp_row (hp_base (cp_post cp))
         ∈ wi_row <$> getRepliesById (w_db w') parent viewer).
Proof.
  intros Hrun. apply create_inr in Hrun as [fs Hc].
  destruct (committed_new_row _ _ _ _ _ _ _ Hc) as [Hrow ->].
  unfold hp_id. simpl. rewrite counted_id. split.
  - unfold getById. rewrite Hrow. eexists. by split.
  - intros parent Hparent. unfold getRepliesById.
    rewrite rows_of_included, elem_of_post_findMany. split; [by eexists|].
    unfold post_matches, replies_where; simpl.
    rewrite counted_inReplyToId. simpl. rewrite Hparent. simpl.
    by rewrite bool_decide_eq_true_2.
Qed.

Lemma create_post_is_readable_witness :
  (∃ o, getById (w_db (snd (create sample_env sample_ctx sample_reblog sample_world)))
          (hp_id (cp_post sample_created)) "bob" = inr [o]
        ∧ wi_post o = hp_base (cp_post sample_created))
  ∧ (∀ parent, CreateInput.inReplyToId sample_reblog = Some parent →
       bp_row (hp_base (cp_post sample_created))
         ∈ wi_row <$> getRepliesById
                        (w_db (snd (create sample_env sample_ctx sample_reblog
                                      sample_world))) parent "bob").
Proof.
  apply (create_post_is_readable sample_env sample_ctx sample_reblog sample_world
           (snd (create sample_env sample_ctx sample_reblog sample_world))
           sample_created "bob").
  vm_compute; reflexivity.
Defined.

(** ** The counters *)

Section counting.
Context (P : Post.t → Prop) `{!∀ p, Decision (P p)}.

Lemma size_filter_pointwise (m m' : gmap string Post.t)
    (g : string → Post.t → Post.t) :
  (∀ q, m' !! q = g q <$> m !! q) →
  (∀ q p, P (g q p) ↔ P p) →
  size (filter (λ kp : string * Post.t, P kp.2) m')
  = size (filter (λ kp : string * Post.t, P kp.2) m).
Proof.
  intros Hm HP.
  rewrite <- !(size_dom (D := gset string)). f_equal.
  apply set_eq. intros k. rewrite !elem_of_dom. unfold is_Some.
  split; intros [x Hx]; apply map_lookup_filter_Some in Hx as [Hx HPx];
    simpl in HPx.
  - rewrite Hm in Hx. destruct (m !! k) as [y|] eqn:Hy; [|done].
    injection Hx as <-. exists y. apply map_lookup_filter_Some.
    split; [done|]. simpl. by apply HP in HPx.
  - exists (g k x). apply map_lookup_filter_Some. rewrite Hm, Hx.
    split; [done|]. simpl. by apply HP.
Qed.

Lemma size_filter_insert_fresh (m : gmap string Post.t) (i : string) (x : Post.t) :
  m !! i = None →
  size (filter (λ kp : string * Post.t, P kp.2) (<[i := x]> m))
  = (size (filter (λ kp : string * Post.t, P kp.2) m)
     + (if decide (P x) then 1 else 0))%nat.
Proof.
  intros Hi. destruct (decide (P x)) as [Hx|Hx].
  - rewrite map_filter_insert_True by done.
    rewrite map_size_insert_None; [lia|].
    apply map_lookup_filter_None. by left.
  - rewrite map_filter_insert_False by done.
    rewrite delete_id by done. lia.
Qed.

Lemma size_filter_none (m : gmap string Post.t) :
  (∀ k p, m !! k = Some p → ¬ P p) →
  size (filter (λ kp : string * Post.t, P kp.2) m) = 0%nat.
Proof.
  intros Hnone. apply map_size_empty_iff, map_empty. intros k.
  apply map_lookup_filter_None. right. intros p Hp. by apply Hnone in Hp.
Qed.
End counting.

Lemma update_if_truthy_target f w w' v :
  update_if_truthy (Some v) f w = (inr (), w') →
  v ≠ EmptyString → is_Some (db_post (w_db w) !! v).
Proof.
  intros H Hv. unfold update_if_truthy, post_update in H.
  rewrite (bool_decide_eq_false_2 _ Hv) in H.
  destruct (db_post (w_db w) !! v); [by eexists|done].
Qed.

Lemma create_post_targets env ctx input w post wa :
  create_post env ctx input w = (inr post, wa) →
  ∀ r, r ≠ EmptyString →
    CreateInput.inReplyToId input = Some r ∨ CreateInput.reblogId input = Some r →
    is_Some (<[Post.id post := post]> (db_post (w_db w)) !! r).
Proof.
  rewrite create_post_unfold.
  destruct (has_permission ctx input (w_db w)); [|done].
  intros H r Hr Href.
  apply bind_inr in H as (p & w1 & Hc & H).
  apply bind_inr in H as ([] & w2 & Hu1 & H).
  apply bind_inr in H as ([] & w3 & Hu2 & H).
  injection H as <- <-.
  apply post_create_inr in Hc as (-> & _ & Hw1).
  destruct Href as [Href|Href]; rewrite Href in *.
  - apply update_if_truthy_target in Hu1; [|done]. by rewrite Hw1 in Hu1.
  - apply update_if_truthy_target in Hu2; [|done].
    apply update_if_truthy_inr in Hu1 as (t2 & Hw2 & Ht2).
    rewrite Hw2 in Hu2. simpl in Hu2. rewrite Ht2, Hw1 in Hu2. simpl in Hu2.
    by apply fmap_is_Some in Hu2.
Qed.

Lemma create_targets env ctx input w cp w' :
  create env ctx input w = (inr cp, w') →
  ∀ r, r ≠ EmptyString →
    CreateInput.inReplyToId input = Some r ∨ CreateInput.reblogId input = Some r →
    is_Some (<[Post.id (new_post env input w) := new_post env input w]>
               (db_post (w_db w)) !! r).
Proof.
  unfold create. destruct (create_schema input); [done|].
  intros H. apply transaction_inr in H. unfold create_tx in H.
  apply bind_inr in H as (post & w0 & Hpost & _).
  pose proof (create_post_inr _ _ _ _ _ _ Hpost) as (_ & <- & _).
  by eapply create_post_targets.
Qed.

Lemma is_target_decide (o : option string) (k : string) :
  o ≠ Some EmptyString →
  is_target o k = bool_decide (o = Some k).
Proof.
  intros Ho. unfold is_target, truthy. destruct o as [v|]; [|done].
  rewrite bool_decide_eq_false_2 by congruence. done.
Qed.

(** X18: the counters are the numbers of the rows.  If every post's
    [repliesCount] is the number of posts that reply to it and its
    [reblogsCount] the number of posts that reblog it, and every such
    reference is to a post that exists, then the same holds after
    [create], committed or not, for an input whose references are not the
    empty string. *)
Theorem create_keeps_counters (env : Env) (ctx : Ctx) (input : CreateInput.t)
    (w : World) :
  counters_exact (w_db w) →
  references_exist (w_db w) →
  CreateInput.inReplyToId input ≠ Some EmptyString →
  CreateInput.reblogId input ≠ Some EmptyString →
  counters_exact (w_db (snd (create env ctx input w)))
  ∧ references_exist (w_db (snd (create env ctx input w))).
Proof.
  intros Hcount Hrefs Hi Hr.
  destruct (create env ctx input w) as [[e|cp] w'] eqn:Hrun; simpl.
  { apply create_inl_db in Hrun. by rewrite Hrun. }
  pose proof (create_targets _ _ _ _ _ _ Hrun) as Htargets.
  apply create_inr in Hrun as [fs Hc].
  pose proof (c_posts _ _ _ _ _ _ _ Hc) as Hposts.
  pose proof (c_fresh _ _ _ _ _ _ _ Hc) as Hfresh.
  set (np := new_post env input w) in *.
  assert (Hnone_i : ∀ k p, db_post (w_db w) !! k = Some p →
                           ¬ Post.inReplyToId p = Some (Post.id np)).
  { intros k p Hk Href. destruct (Hrefs k p Hk) as [H1 _].
    destruct (H1 _ Href) as [x Hx]. congruence. }
  assert (Hnone_r : ∀ k p, db_post (w_db w) !! k = Some p →
                           ¬ Post.reblogId p = Some (Post.id np)).
  { intros k p Hk Href. destruct (Hrefs k p Hk) as [_ H2].
    destruct (H2 _ Href) as [x Hx]. congruence. }
  split.
  - intros k p' Hk. rewrite Hposts in Hk.
    destruct (<[Post.id np := np]> (db_post (w_db w)) !! k) as [p0|] eqn:Hp0; [|done].
    injection Hk as <-. unfold replies_to, reblogs_of.
    pose proof (size_filter_pointwise (λ p, Post.inReplyToId p = Some k) _ _ _ Hposts)
      as E1.
    pose proof (size_filter_pointwise (λ p, Post.reblogId p = Some k) _ _ _ Hposts)
      as E2.
    pose proof (size_filter_insert_fresh (λ p, Post.inReplyToId p = Some k)
                  _ _ np Hfresh) as E3.
    pose proof (size_filter_insert_fresh (λ p, Post.reblogId p = Some k)
                  _ _ np Hfresh) as E4.
    cbv beta in E1, E2, E3, E4.
    rewrite E1 by (intros q p; by rewrite counted_inReplyToId).
    rewrite E2 by (intros q p; by rewrite counted_reblogId).
    rewrite E3, E4. clear E1 E2 E3 E4.
    rewrite counted_repliesCount, counted_reblogsCount, !is_target_decide by done.
    assert (Hold : Post.repliesCount p0
                   = Z.of_nat (size (filter (λ kp : string * Post.t,
                                       Post.inReplyToId kp.2 = Some k) (db_post (w_db w))))
                   ∧ Post.reblogsCount p0
                     = Z.of_nat (size (filter (λ kp : string * Post.t,
                                         Post.reblogId kp.2 = Some k) (db_post (w_db w))))).
    { destruct (decide (Post.id np = k)) as [<-|Hne].
      - rewrite lookup_insert_eq in Hp0. injection Hp0 as <-.
        pose proof (size_filter_none (λ p, Post.inReplyToId p = Some (Post.id np))
                      _ Hnone_i) as E5.
        pose proof (size_filter_none (λ p, Post.reblogId p = Some (Post.id np))
                      _ Hnone_r) as E6.
        cbv beta in E5, E6. by rewrite E5, E6.
      - rewrite lookup_insert_ne in Hp0 by done. by apply Hcount. }
    destruct Hold as [-> ->]. simpl.
    split.
    + destruct (decide (CreateInput.inReplyToId input = Some k)) as [He|He].
      * rewrite bool_decide_eq_true_2 by done. lia.
      * rewrite bool_decide_eq_false_2 by done. lia.
    + destruct (decide (CreateInput.reblogId input = Some k)) as [He|He].
      * rewrite bool_decide_eq_true_2 by done. lia.
      * rewrite bool_decide_eq_false_2 by done. lia.
  - intros k p' Hk. rewrite Hposts in Hk.
    destruct (<[Post.id np := np]> (db_post (w_db w)) !! k) as [p0|] eqn:Hp0; [|done].
    injection Hk as <-. rewrite counted_inReplyToId, counted_reblogId.
    assert (Hin : ∀ r, Post.inReplyToId p0 = Some r ∨ Post.reblogId p0 = Some r →
                       is_Some (<[Post.id np := np]> (db_post (w_db w)) !! r)).
    { intros r Href. destruct (decide (Post.id np = k)) as [<-|Hne].
      - rewrite lookup_insert_eq in Hp0. injection Hp0 as <-. simpl in Href.
        apply Htargets; [|done]. intros ->. by destruct Href.
      - rewrite lookup_insert_ne in Hp0 by done.
        destruct (Hrefs k p0 Hp0) as [H1 H2].
        assert (Hex : is_Some (db_post (w_db w) !! r)).
        { destruct Href as [Href|Href]; [by apply H1|by apply H2]. }
        apply lookup_insert_is_Some. destruct (decide (Post.id np = r)); [by left|].
        by right. }
    split; intros r Href; rewrite Hposts; apply fmap_is_Some, Hin.
    + by left.
    + by right.
Qed.

Lemma sample_counters_exact : counters_exact sample_db.
Proof.
  intros k p Hp. unfold sample_db in Hp. simpl in Hp.
  apply lookup_insert_Some in Hp as [[<- <-]|[_ Hp]].
  - split; vm_compute; reflexivity.
  - apply lookup_singleton_Some in Hp as [<- <-]. split; vm_compute; reflexivity.
Qed.

Lemma sample_references_exist : references_exist sample_db.
Proof.
  intros k p Hp. unfold sample_db in Hp. simpl in Hp.
  apply lookup_insert_Some in Hp as [[<- <-]|[_ Hp]].
  - split; intros r Hr; discriminate Hr.
  - apply lookup_singleton_Some in Hp as [<- <-]. split; intros r Hr.
    + discriminate Hr.
    + injection Hr as <-. by eexists.
Qed.

Lemma create_keeps_counters_witness :
  counters_exact (w_db (snd (create sample_env sample_ctx sample_reblog sample_world)))
  ∧ references_exist
      (w_db (snd (create sample_env sample_ctx sample_reblog sample_world))).
Proof.
  apply (create_keeps_counters sample_env sample_ctx sample_reblog sample_world).
  - exact sample_counters_exact.
  - exact sample_references_exist.
  - discriminate.
  - discriminate.
Defined.

(** ** The size of the answer of [createPresignedUrls] *)

(** X19: whatever number the schema lets through, whole or not, the call
    returns with four passes of fuel, the answer has the count rounded up
    as its number of entries, at least 1 and at most 4, and only the key
    generator has moved: the database and the object store are not
    touched. *)
Theorem createPresignedUrls_bounds (env : Env) (fuel : nat) (count : Q) (w : World) :
  presigned_schema count = true →
  (4 ≤ fuel)%nat →
  ∃ urls w',
    createPresignedUrls env fuel count w = (inr (Some urls), w')
    ∧ Z.of_nat (length urls) = Qceiling count
    ∧ (1 ≤ length urls ≤ 4)%nat
    ∧ w_db w' = w_db w
    ∧ w_s3 w' = w_s3 w.
Proof.
  intros Hs Hfuel.
  destruct (createPresignedUrls_ceiling env fuel count w Hs Hfuel) as [Hrun Hc].
  eexists _, _. split; [exact Hrun|].
  unfold presigned_entries. rewrite length_fmap, length_seq.
  split; [lia|]. split; [lia|]. by split.
Qed.

Lemma createPresignedUrls_bounds_witness :
  ∃ urls w',
    createPresignedUrls sample_env 4 (5 # 2) sample_world = (inr (Some urls), w')
    ∧ Z.of_nat (length urls) = Qceiling (5 # 2)
    ∧ (1 ≤ length urls ≤ 4)%nat
    ∧ w_db w' = w_db sample_world
    ∧ w_s3 w' = w_s3 sample_world.
Proof.
  apply (createPresignedUrls_bounds sample_env 4 (5 # 2) sample_world).
  - reflexivity.
  - lia.
Defined.

(** * The navigation components *)

Lemma indexOf_spec (l : list string) (x : string) :
  (indexOf l x = -1 ∧ x ∉ l)
  ∨ (∃ i : nat, indexOf l x = Z.of_nat i
                ∧ l !! i = Some x
                ∧ ∀ j y, (j < i)%nat → l !! j = Some y → y ≠ x).
Proof.
  induction l as [|y l IH]; simpl.
  - left. split; [done|]. apply not_elem_of_nil.
  - destruct (decide (y = x)) as [->|Hne].
    + rewrite bool_decide_eq_true_2 by done. right. exists 0%nat.
      split; [done|]. split; [done|]. intros j z Hj. lia.
    + rewrite bool_decide_eq_false_2 by done.
      destruct IH as [[Hi Hnot]|(i & Hi & Hl & Hfirst)]; rewrite Hi.
      * left. split; [done|]. by apply not_elem_of_cons.
      * rewrite bool_decide_eq_false_2 by lia. right. exists (S i).
        split; [lia|]. split; [done|]. intros [|j] z Hj Hz.
        -- by injection Hz as <-.
        -- simpl in Hz. eapply Hfirst; [|exact Hz]. lia.
Qed.

(** X20: the marker of the side bar goes with the highlight.  It is drawn
    exactly when one of the links offered is highlighted, that is when the
    current path is the url of a link, and it then sits 45 pixels down for
    each link above the first highlighted one; with no such link nothing is
    drawn. *)
Theorem side_marker_first_highlighted (status : SessionStatus)
    (profile : option string) (asPath : string) :
  match side_marker status profile asPath with
  | Some top =>
      ∃ (i : nat) link,
        top = 45 * Z.of_nat i
        ∧ side_links status profile asPath !! i = Some link
        ∧ link_highlighted link = true
        ∧ ∀ j l, (j < i)%nat → side_links status profile asPath !! j = Some l →
                 link_highlighted l = false
  | None => Forall (λ l, link_highlighted l = false) (side_links status profile asPath)
  end.
Proof.
  unfold side_marker, side_top, side_links.
  destruct (indexOf_spec (nav_url <$> activeItems status profile) asPath)
    as [[Hi Hnot]|(i & Hi & Hl & Hfirst)]; rewrite Hi.
  - rewrite bool_decide_eq_false_2 by lia.
    apply Forall_fmap, Forall_forall. intros item Hitem. simpl.
    apply bool_decide_eq_false. intros Hurl. apply Hnot.
    apply list_elem_of_fmap. by exists item.
  - rewrite bool_decide_eq_true_2 by lia.
    rewrite list_lookup_fmap in Hl.
    destruct (activeItems status profile !! i) as [item|] eqn:Hitem; [|done].
    injection Hl as Hl. eexists i, _. split; [lia|].
    rewrite list_lookup_fmap, Hitem. split; [done|]. split.
    + by apply bool_decide_eq_true.
    + intros j l Hj Hjl. rewrite list_lookup_fmap in Hjl.
      destruct (activeItems status profile !! j) as [item'|] eqn:Hitem'; [|done].
      injection Hjl as <-. simpl. apply bool_decide_eq_false.
      eapply Hfirst; [exact Hj|]. by rewrite list_lookup_fmap, Hitem'.
Qed.

Lemma append_String a s t : (String a s +:+ t) = String a (s +:+ t).
Proof. reflexivity. Qed.

Lemma append_Empty t : (EmptyString +:+ t) = t.
Proof. reflexivity. Qed.

Lemma String_tail a s b t : String a s = String b t → s = t.
Proof. by intros [= _ ->]. Qed.

(** Two strings that differ once a variable prefix [u] of one of them is
    spelled out against the letters of the other. *)
Ltac string_differs H u :=
  repeat first
    [ discriminate H
    | progress rewrite ?append_String, ?append_Empty in H
    | match type of H with
      | String _ _ = String _ _ => apply String_tail in H
      | (u +:+ _) = _ => destruct u as [|? u]
      end ].

Lemma side_key_Home u : ("side-bar" +:+ "/" +:+ u) +:+ "Profile" ≠ "side-bar/Home".
Proof. intros H. string_differs H u. Qed.

Lemma side_key_Search u :
  ("side-bar" +:+ "/" +:+ u) +:+ "Profile" ≠ "side-bar/searchSearch".
Proof. intros H. string_differs H u. Qed.

Lemma side_key_Notifications u :
  ("side-bar" +:+ "/" +:+ u) +:+ "Profile" ≠ "side-bar/notificationsNotifications".
Proof. intros H. string_differs H u. Qed.

Lemma side_key_Settings u :
  ("side-bar" +:+ "/" +:+ u) +:+ "Profile" ≠ "side-bar/settingsSettings".
Proof. intros H. string_differs H u. Qed.

Lemma side_links_keys status profile asPath :
  link_key <$> side_links status profile asPath
  = let u := default EmptyString profile in
    if bool_decide (status = authenticated)
    then [ "side-bar/Home"; "side-bar/searchSearch";
           "side-bar/notificationsNotifications";
           ("side-bar" +:+ "/" +:+ u) +:+ "Profile";
           "side-bar/settingsSettings" ]
    else [ "side-bar/Home"; "side-bar/searchSearch" ].
Proof. by destruct status, profile. Qed.

Lemma not_elem_of_list (x : string) (l : list string) :
  Forall (λ y, x ≠ y) l → x ∉ l.
Proof. rewrite Forall_forall. intros H Hx. by apply (H x). Qed.

(** X21: the keys of the links of the side bar are pairwise different,
    whatever the session, the current path and the username of the
    profile, a username such as "search" or no profile at all included. *)
Theorem side_links_keys_distinct (status : SessionStatus) (profile : option string)
    (asPath : string) :
  NoDup (link_key <$> side_links status profile asPath).
Proof.
  rewrite side_links_keys. cbv zeta.
  pose proof (side_key_Home (default EmptyString profile)) as H1.
  pose proof (side_key_Search (default EmptyString profile)) as H2.
  pose proof (side_key_Notifications (default EmptyString profile)) as H3.
  pose proof (side_key_Settings (default EmptyString profile)) as H4.
  destruct (bool_decide (status = authenticated));
    repeat (apply NoDup_cons; split;
            [apply not_elem_of_list; repeat constructor; congruence|]);
    apply NoDup_nil_2.
Qed.

Lemma bottom_links_keys profile asPath :
  link_key <$> bottom_links profile asPath
  = [ "/"; "/search"; "/notifications"; "/" +:+ default EmptyString profile ].
Proof. by destruct profile. Qed.

(** X22: in the bottom bar the key of a link is its url, and the url of
    the profile link is made from the username.  The four keys are
    pairwise different exactly when a profile is loaded and its username
    is neither empty nor "search" nor "notifications"; while the profile
    is loading, the profile link has the key and the target of the home
    link. *)
Theorem bottom_links_keys_distinct (profile : option string) (asPath : string) :
  NoDup (link_key <$> bottom_links profile asPath)
  ↔ ∃ u, profile = Some u
         ∧ u ≠ EmptyString ∧ u ≠ "search" ∧ u ≠ "notifications".
Proof.
  rewrite bottom_links_keys, append_String, append_Empty. split.
  - intros Hnd.
    apply NoDup_cons in Hnd as [H1 Hnd]. apply NoDup_cons in Hnd as [H2 Hnd].
    apply NoDup_cons in Hnd as [H3 _].
    destruct profile as [u|]; simpl in *.
    + exists u. split; [done|]. split; [|split]; intros ->.
      * apply H1. by do 2 right; left.
      * apply H2. by right; left.
      * apply H3. by left.
    + exfalso. apply H1. by do 2 right; left.
  - intros (u & -> & Hu1 & Hu2 & Hu3). simpl.
    repeat (apply NoDup_cons; split;
            [apply not_elem_of_list; repeat constructor; congruence|]).
    apply NoDup_nil_2.
Qed.

(** * The File rows of [create] *)

Lemma promote_upload_checked env postId upload w w' :
  promote_upload env postId upload w = (inr (), w') →
  ∃ name object ft w1 f,
    relocate_upload env upload w = (inr (name, object, Some ft), w1)
    ∧ ContentLength object = Some (File.size f)
    ∧ File.size f ≠ 0%N
    ∧ File.name f = name
    ∧ File.extension f = Upload.ext upload
    ∧ File.extension f = pr_type ft
    ∧ File.mime f = pr_mime ft
    ∧ db_file (w_db w) !! File.id f = None
    ∧ db_file (w_db w') = <[File.id f := f]> (db_file (w_db w)).
Proof.
  unfold promote_upload. intros H.
  apply bind_inr in H as ([[name object] fileType] & w1 & Hr & Hp).
  pose proof (relocate_upload_inv _ _ _ _ _ Hr) as Hdb.
  apply persist_upload_inr in Hp
    as (size & ft & f & Hlen & Hsize & -> & Hext & _ & Hn & He & Hs & Hm & _ & _
        & Hf & Hw').
  rewrite Hdb in Hf, Hw'. exists name, object, ft, w1, f. rewrite Hw', Hs.
  repeat split; try done. congruence.
Qed.

(** A File row that the loop added is the row of one pass: the uploads
    split around the upload of that pass, and the row records the object
    that the pass fetched and what the probe found in it. *)
Lemma promote_files_checked env postId uploads :
  ∀ w w' k f,
    promote_files env postId uploads w = (inr (), w') →
    db_file (w_db w') !! k = Some f →
    db_file (w_db w) !! k = None →
    ∃ pre upload rest w1 name object ft w2,
      uploads = (pre ++ upload :: rest)%list
      ∧ promote_files env postId pre w = (inr (), w1)
      ∧ relocate_upload env upload w1 = (inr (name, object, Some ft), w2)
      ∧ ContentLength object = Some (File.size f)
      ∧ File.size f ≠ 0%N
      ∧ File.name f = name
      ∧ File.extension f = Upload.ext upload
      ∧ File.extension f = pr_type ft
      ∧ File.mime f = pr_mime ft
      ∧ File.id f = k.
Proof.
  induction uploads as [|u rest IH]; intros w w' k f H Hnew Hold; simpl in H.
  - injection H as <-. congruence.
  - apply bind_inr in H as ([] & w1 & Hstep & Hrest).
    pose proof Hstep as Hstep'.
    apply promote_upload_checked in Hstep'
      as (name & object & ft & w0 & f0 & Hrel & Hlen & Hsize & Hn & Hext & Htype
          & Hmime & Hfresh & Hw1).
    destruct (decide (k = File.id f0)) as [->|Hk].
    + assert (Hf0 : db_file (w_db w') !! File.id f0 = Some f0).
      { eapply promote_files_lookup; [exact Hrest|].
        rewrite Hw1. apply lookup_insert_eq. }
      assert (f = f0) as -> by congruence.
      exists [], u, rest, w, name, object, ft, w0. by repeat split.
    + assert (Hold1 : db_file (w_db w1) !! k = None).
      { rewrite Hw1. by rewrite lookup_insert_ne. }
      destruct (IH w1 w' k f Hrest Hnew Hold1)
        as (pre & upload & rest' & w2 & name' & object' & ft' & w3
            & -> & Hpre & Hrel' & Hfacts).
      exists (u :: pre), upload, rest', w2, name', object', ft', w3.
      split; [done|]. split; [|by split].
      simpl. by rewrite (bind_inr_l _ _ _ _ _ Hstep).
Qed.

(** X23: no File row without a checked file.  Every File row that a
    successful [create] added was written by the pass of the loop over one
    upload of the input, and records the object of that pass: the object
    that was staged under the key of the upload when the pass began, moved
    to the new name, fetched from there and given to the probe.  The name
    of the row is that new name, its size is the length of that object,
    which is not zero, its extension is the one declared for the upload and
    the type the probe detected in that object, and its MIME type is the
    probe's. *)
Theorem create_files_validated (env : Env) (ctx : Ctx) (input : CreateInput.t)
    (w w' : World) (cp : CreatedPost) (k : string) (f : File.t) :
  create env ctx input w = (inr cp, w') →
  db_file (w_db w') !! k = Some f →
  db_file (w_db w) !! k = None →
  ∃ pre upload rest post w0 w1 name object ft w2,
    CreateInput.files input = Some (pre ++ upload :: rest)%list
    ∧ upload ∈ uploads_of input
    ∧ create_post env ctx input w = (inr post, w0)
    ∧ promote_files env (Post.id post) pre w0 = (inr (), w1)
    ∧ relocate_upload env upload w1 = (inr (name, object, Some ft), w2)
    ∧ w_s3 w1 !! Upload.key upload = Some object
    ∧ w_s3 w2 !! name = Some object
    ∧ probe env (Body object) = inr (Some ft)
    ∧ ContentLength object = Some (File.size f)
    ∧ File.size f ≠ 0%N
    ∧ File.name f = name
    ∧ File.extension f = Upload.ext upload
    ∧ File.extension f = pr_type ft
    ∧ File.mime f = pr_mime ft
    ∧ File.id f = k.
Proof.
  unfold create. destruct (create_schema input); [done|].
  intros H Hnew Hold. apply transaction_inr in H. unfold create_tx in H.
  apply bind_inr in H as (post & w0 & Hpost & H).
  apply bind_inr in H as ([] & wb & Hfiles & H).
  apply bind_inr in H as (hp & wc & Hread & H).
  injection H as _ <-.
  assert (wc = wb) as ->.
  { unfold post_findUniqueOrThrow in Hread.
    destruct (db_post (w_db wb) !! Post.id post); [|done]. by injection Hread. }
  assert (Hold0 : db_file (w_db w0) !! k = None).
  { apply create_post_inr in Hpost as (_ & _ & _ & posts & -> & _). done. }
  unfold uploads_of. destruct (CreateInput.files input) as [files|]; simpl.
  - destruct (promote_files_checked _ _ _ _ _ _ _ Hfiles Hnew Hold0)
      as (pre & upload & rest & w1 & name & object & ft & w2
          & -> & Hpre & Hrel & Hlen & Hsize & Hn & Hext & Htype & Hmime & Hid).
    pose proof (relocate_upload_inr _ _ _ _ _ _ _ Hrel) as (_ & Hprobe & Hstored & _).
    pose proof (relocate_upload_move _ _ _ _ _ _ _ Hrel) as (_ & Hstaged & _).
    exists pre, upload, rest, post, w0, w1, name, object, ft, w2.
    split; [done|]. split; [apply elem_of_app; right; by left|].
    by repeat split.
  - injection Hfiles as <-. congruence.
Qed.

Lemma create_files_validated_witness :
  ∃ pre upload rest post w0 w1 name object ft w2,
    CreateInput.files sample_reblog = Some (pre ++ upload :: rest)%list
    ∧ upload ∈ uploads_of sample_reblog
    ∧ create_post sample_env sample_ctx sample_reblog sample_world = (inr post, w0)
    ∧ promote_files sample_env (Post.id post) pre w0 = (inr (), w1)
    ∧ relocate_upload sample_env upload w1 = (inr (name, object, Some ft), w2)
    ∧ w_s3 w1 !! Upload.key upload = Some object
    ∧ w_s3 w2 !! name = Some object
    ∧ probe sample_env (Body object) = inr (Some ft)
    ∧ ContentLength object = Some (File.size sample_file)
    ∧ File.size sample_file ≠ 0%N
    ∧ File.name sample_file = name
    ∧ File.extension sample_file = Upload.ext upload
    ∧ File.extension sample_file = pr_type ft
    ∧ File.mime sample_file = pr_mime ft
    ∧ File.id sample_file = "c1".
Proof.
  apply (create_files_validated sample_env sample_ctx sample_reblog sample_world
           (snd (create sample_env sample_ctx sample_reblog sample_world))
           sample_created "c1" sample_file).
  - vm_compute; reflexivity.
  - vm_compute; reflexivity.
  - vm_compute; reflexivity.
Defined.

(** * The input schema of [create] *)

Lemma upload_schema_false u :
  Upload.key u = EmptyString ∨ Upload.ext u = EmptyString → upload_schema u = false.
Proof.
  unfold upload_schema. intros Hempty. apply not_true_is_false. intros Hs.
  apply andb_prop in Hs as [H1 H2].
  apply bool_decide_eq_true in H1, H2.
  destruct Hempty as [He|He]; rewrite He in *; simpl in *; lia.
Qed.

(** X24: what the schema refuses.  An input with more than four uploads,
    or with an upload whose key or extension is empty, or in which the two
    references and the content are each absent or the empty string and
    there is no upload, is rejected with a validation error before the
    transaction starts, and the world is untouched. *)
Theorem create_schema_rejects (env : Env) (ctx : Ctx) (input : CreateInput.t)
    (w : World) :
  (4 < length (uploads_of input))%nat
  ∨ (∃ u, u ∈ uploads_of input
          ∧ (Upload.key u = EmptyString ∨ Upload.ext u = EmptyString))
  ∨ (uploads_of input = []
     ∧ (CreateInput.inReplyToId input = None
        ∨ CreateInput.inReplyToId input = Some EmptyString)
     ∧ (CreateInput.reblogId input = None
        ∨ CreateInput.reblogId input = Some EmptyString)
     ∧ (CreateInput.content input = None
        ∨ CreateInput.content input = Some EmptyString)) →
  ∃ issue, create env ctx input w = (inl (ZodError issue), w).
Proof.
  intros Hbad.
  assert (Hs : ∃ issue, create_schema input = Some issue).
  { unfold create_schema, uploads_of in *.
    destruct Hbad as [Hlen|[(u & Hu & Hempty)|(Hnil & Hi & Hr & Hc)]].
    - destruct (CreateInput.files input) as [files|]; simpl in Hlen; [|lia].
      rewrite bool_decide_eq_false_2 by lia. by eexists.
    - destruct (CreateInput.files input) as [files|]; simpl in Hu;
        [|by apply elem_of_nil in Hu].
      assert (Hf : forallb upload_schema files = false).
      { apply not_true_is_false. intros Hall. rewrite forallb_forall in Hall.
        apply list_elem_of_In in Hu. apply Hall in Hu.
        by rewrite (upload_schema_false u Hempty) in Hu. }
      destruct (negb (bool_decide (length files ≤ 4)%nat)); [by eexists|].
      rewrite Hf. by eexists.
    - assert (Href : create_refine input = false).
      { unfold create_refine.
        destruct Hi as [-> | ->], Hr as [-> | ->], Hc as [-> | ->]; simpl;
          destruct (CreateInput.files input) as [files|]; simpl in *; subst; done. }
      rewrite Href.
      destruct (CreateInput.files input) as [files|]; [|by eexists].
      destruct (negb (bool_decide (length files ≤ 4)%nat)); [by eexists|].
      destruct (negb (forallb upload_schema files)); by eexists. }
  destruct Hs as [issue Hs]. exists issue. unfold create. by rewrite Hs.
Qed.

Lemma create_schema_rejects_witness :
  ∃ issue, create sample_env sample_ctx sample_five sample_world
           = (inl (ZodError issue), sample_world).
Proof.
  apply (create_schema_rejects sample_env sample_ctx sample_five sample_world).
  left. simpl. lia.
Defined.
